(** * django_bouncy.utils: verification of Amazon SNS callbacks

    A shallow embedding of [src/django_bouncy/utils.py] and the properties
    of its functions [grab_keyfile], [verify_notification] and
    [approve_subscription].

    The module is read as Python 3 runs it (it calls [base64.decodebytes]
    and carries a Django 5 compatibility branch).  Of the guarded imports
    of lines 3-18, [import urllib2] fails, so the name [urllib] is bound
    to the package [urllib]; [urlopen] is [urllib.request.urlopen] and
    [urlparse] is [urllib.parse.urlparse].

    Python [str] values are strings of code points below 256, [bytes]
    values are lists of bytes.  Code of this repository is translated
    function by function; the libraries it calls (the network, the PEM
    parser, the [cryptography] primitives, [urlparse], Django's
    [force_str]) are the fields of the record [libraries], over which
    every statement about the functions is quantified. *)

From Stdlib Require Import Ascii String List NArith ZArith Lia Bool.
From stdpp Require Import base option list gmap strings.

Local Open Scope string_scope.

(** ** Values, exceptions and results *)

Abbreviation bytes := (list Byte.byte).

(** The notification: the parsed JSON body, a mapping from field names to
    string values. *)
Abbreviation payload := (gmap string string).

Inductive exn : Type :=
  | KeyError (key : string)
  | ValueError (msg : string)
  | TypeError (msg : string)
  | AttributeError (msg : string)
  | BinasciiError (msg : string)
  | HTTPError (body : bytes)
  | URLError (reason : string)
  | InvalidCacheBackendError (alias : string)
  | InvalidSignature
  | UnicodeDecodeError
  | LibraryError (msg : string).

Inductive result (A : Type) : Type :=
  | Returned (a : A)
  | Raised (e : exn).
Arguments Returned {A} a.
Arguments Raised {A} e.

Definition result_bind {A B : Type} (r : result A) (k : A → result B) : result B :=
  match r with
  | Returned a => k a
  | Raised e => Raised e
  end.

(** [data[key]] on the payload. *)
Definition getitem (data : payload) (key : string) : result string :=
  match data !! key with
  | Some v => Returned v
  | None => Raised (KeyError key)
  end.

(** ** Encoding helpers *)

Definition byte_of_N (n : N) : Byte.byte :=
  match Byte.of_N n with
  | Some b => b
  | None => Byte.x00
  end.

(** UTF-8 encoding of one code point below 256. *)
Definition utf8_encode_char (c : ascii) : bytes :=
  let n := N_of_ascii c in
  if (n <? 128)%N then [byte_of_N n]
  else [byte_of_N (N.lor 192 (N.shiftr n 6)); byte_of_N (N.lor 128 (N.land n 63))].

(** [force_bytes(s)] for a [str]: its UTF-8 encoding.  Every string of
    this development, made of code points below 256, has one.  A [str]
    that holds a lone surrogate, for which Django's [force_bytes] raises
    [UnicodeEncodeError], is outside the strings modelled here. *)
Fixpoint force_bytes (s : string) : bytes :=
  match s with
  | EmptyString => []
  | String c s' => utf8_encode_char c ++ force_bytes s'
  end.

(** [smart_bytes(b)] for a [bytes] value returns it unchanged. *)
Definition smart_bytes (b : bytes) : bytes := b.

(** ** [str.format] with keyword arguments

    The two templates hold literal text and replacement fields that are
    plain names.  Doubled braces are the escapes of the format language;
    a field with a conversion, a format spec, an attribute or an index is
    not part of this model and is reported like a malformed template. *)

Inductive segment : Type :=
  | Lit (c : ascii)
  | Field (name : string).

Definition field_name_char (c : ascii) : bool :=
  negb (bool_decide (c ∈ ["{"; "!"; ":"; "."; "["; "]"]%char)).

Fixpoint parse_template (t : string) (field : option string) : option (list segment) :=
  match t with
  | EmptyString =>
      match field with
      | None => Some []
      | Some _ => None
      end
  | String c t' =>
      match field with
      | None =>
          if Ascii.eqb c "{" then
            match t' with
            | String "{" t'' => cons (Lit "{") <$> parse_template t'' None
            | _ => parse_template t' (Some "")
            end
          else if Ascii.eqb c "}" then
            match t' with
            | String "}" t'' => cons (Lit "}") <$> parse_template t'' None
            | _ => None
            end
          else cons (Lit c) <$> parse_template t' None
      | Some name =>
          if Ascii.eqb c "}" then
            match name with
            | EmptyString => None
            | _ => cons (Field name) <$> parse_template t' None
            end
          else if field_name_char c then parse_template t' (Some (name ++ String c ""))
          else None
      end
  end.

(** Substitution runs left to right: the first absent field raises
    [KeyError]. *)
Fixpoint substitute (segs : list segment) (kwargs : payload) : result string :=
  match segs with
  | [] => Returned ""
  | Lit c :: segs' => result_bind (substitute segs' kwargs) (λ r, Returned (String c r))
  | Field name :: segs' =>
      result_bind (getitem kwargs name) (λ v,
      result_bind (substitute segs' kwargs) (λ r, Returned (v ++ r)))
  end.

(** [template.format] applied to the payload as keyword arguments. *)
Definition format (template : string) (kwargs : payload) : result string :=
  match parse_template template None with
  | Some segs => substitute segs kwargs
  | None => Raised (ValueError "malformed format string")
  end.

Definition NOTIFICATION_HASH_FORMAT : string :=
"Message
{Message}
MessageId
{MessageId}
Timestamp
{Timestamp}
TopicArn
{TopicArn}
Type
{Type}
".

Definition SUBSCRIPTION_HASH_FORMAT : string :=
"Message
{Message}
MessageId
{MessageId}
SubscribeURL
{SubscribeURL}
Timestamp
{Timestamp}
Token
{Token}
TopicArn
{TopicArn}
Type
{Type}
".

(** The template chosen for a [Type] value (lines 104-107). *)
Definition hash_format_of (type : string) : string :=
  if String.eqb type "Notification" then NOTIFICATION_HASH_FORMAT
  else SUBSCRIPTION_HASH_FORMAT.

(** The string that [verify_notification] has checked: the template of
    the payload's [Type], filled from the payload. *)
Definition canonical_string (data : payload) : result string :=
  result_bind (getitem data "Type") (λ type, format (hash_format_of type) data).

(** The replacement fields of a template, in order. *)
Definition fields_of (segs : list segment) : list string :=
  omap (λ s, match s with Field n => Some n | Lit _ => None end) segs.

Definition template_fields (template : string) : list string :=
  match parse_template template None with
  | Some segs => fields_of segs
  | None => []
  end.


(** ** [base64.decodebytes]

    [decodebytes] is [binascii.a2b_base64] in its default, lenient mode:
    bytes outside the alphabet are skipped, a pad sequence that completes
    a quad ends the decoding, and an incomplete final quad raises
    [binascii.Error]. *)

Definition b64_value (c : Byte.byte) : option N :=
  let n := Byte.to_N c in
  if ((65 <=? n) && (n <=? 90))%N then Some (n - 65)%N
  else if ((97 <=? n) && (n <=? 122))%N then Some (n - 71)%N
  else if ((48 <=? n) && (n <=? 57))%N then Some (n + 4)%N
  else if (n =? 43)%N then Some 62%N
  else if (n =? 47)%N then Some 63%N
  else None.

Definition BASE64_PAD : Byte.byte := Byte.x3d.

Fixpoint a2b_base64 (data : bytes) (quad_pos : nat) (leftchar : N) (pads : nat)
    (out : bytes) : result bytes :=
  match data with
  | [] =>
      match quad_pos with
      | 0 => Returned out
      | 1 => Raised (BinasciiError
               "Invalid base64-encoded string: number of data characters cannot be 1 more than a multiple of 4")
      | _ => Raised (BinasciiError "Incorrect padding")
      end
  | this_ch :: rest =>
      if Byte.eqb this_ch BASE64_PAD then
        if (2 <=? quad_pos)%nat then
          if (4 <=? quad_pos + S pads)%nat then Returned out
          else a2b_base64 rest quad_pos leftchar (S pads) out
        else a2b_base64 rest quad_pos leftchar pads out
      else
        match b64_value this_ch with
        | None => a2b_base64 rest quad_pos leftchar pads out
        | Some v =>
            match quad_pos with
            | 0 => a2b_base64 rest 1 v 0 out
            | 1 =>
                a2b_base64 rest 2 (N.land v 15) 0
                  (out ++ [byte_of_N (N.lor (N.shiftl leftchar 2) (N.shiftr v 4))])
            | 2 =>
                a2b_base64 rest 3 (N.land v 3) 0
                  (out ++ [byte_of_N (N.lor (N.shiftl leftchar 4) (N.shiftr v 2))])
            | _ =>
                a2b_base64 rest 0 0 0
                  (out ++ [byte_of_N (N.lor (N.shiftl leftchar 6) v)])
            end
        end
  end.

Definition decodebytes (s : bytes) : result bytes := a2b_base64 s 0 0%N 0 [].


(** ** Regular expressions: [re.search]

    Patterns are kept in compiled form.  [re_search] decides whether the
    pattern matches somewhere in the subject, which is all the truth value
    of a match object says.  Without flags, [.] matches any character but
    a newline, and [$] matches at the end of the subject and just before
    a newline that ends it. *)

Inductive regex : Type :=
  | Fail
  | Eps
  | Chr (c : ascii)
  | AnyChr
  | Class (negated : bool) (ranges : list (ascii * ascii))
  | Bol
  | Eol
  | Cat (r1 r2 : regex)
  | Alt (r1 r2 : regex)
  | Star (r : regex).

Definition Plus (r : regex) : regex := Cat r (Star r).
Definition Opt (r : regex) : regex := Alt r Eps.

Definition newline : ascii := "010"%char.

Definition in_range (c : ascii) (rg : ascii * ascii) : bool :=
  ((N_of_ascii rg.1 <=? N_of_ascii c) && (N_of_ascii c <=? N_of_ascii rg.2))%N.

Definition class_matches (negated : bool) (ranges : list (ascii * ascii)) (c : ascii) : bool :=
  xorb negated (existsb (in_range c) ranges).

(** The position of the matcher: whether it stands at the start of the
    subject, and what is left of the subject. *)
Definition at_end (rest : string) : bool :=
  match rest with
  | EmptyString => true
  | String c EmptyString => Ascii.eqb c newline
  | _ => false
  end.

(** Does [r] match the empty string at this position? *)
Fixpoint nullable (at_start : bool) (rest : string) (r : regex) : bool :=
  match r with
  | Fail => false
  | Eps => true
  | Chr _ | AnyChr | Class _ _ => false
  | Bol => at_start
  | Eol => at_end rest
  | Cat r1 r2 => nullable at_start rest r1 && nullable at_start rest r2
  | Alt r1 r2 => nullable at_start rest r1 || nullable at_start rest r2
  | Star _ => true
  end.

(** What is left of [r] once it has consumed [c], the first character of
    [rest], at this position. *)
Fixpoint derive (at_start : bool) (rest : string) (c : ascii) (r : regex) : regex :=
  match r with
  | Fail | Eps | Bol | Eol => Fail
  | Chr a => if Ascii.eqb a c then Eps else Fail
  | AnyChr => if Ascii.eqb c newline then Fail else Eps
  | Class negated ranges => if class_matches negated ranges c then Eps else Fail
  | Cat r1 r2 =>
      let left := Cat (derive at_start rest c r1) r2 in
      if nullable at_start rest r1 then Alt left (derive at_start rest c r2) else left
  | Alt r1 r2 => Alt (derive at_start rest c r1) (derive at_start rest c r2)
  | Star r1 => Cat (derive at_start rest c r1) (Star r1)
  end.

(** [re.match] at one position: some prefix of [rest] matches [r]. *)
Fixpoint match_here (at_start : bool) (r : regex) (rest : string) : bool :=
  nullable at_start rest r ||
  match rest with
  | EmptyString => false
  | String c rest' => match_here false (derive at_start rest c r) rest'
  end.

Fixpoint search_from (at_start : bool) (r : regex) (subject : string) : bool :=
  match_here at_start r subject ||
  match subject with
  | EmptyString => false
  | String _ subject' => search_from false r subject'
  end.

(** The truth value of [re.search(pattern, subject)]. *)
Definition re_search (pattern : regex) (subject : string) : bool :=
  search_from true pattern subject.

(** *** Compiling pattern text

    The compiler of the pattern syntax that the default pattern is
    written in: literal characters, [.], [^], [$], backslash escapes of
    punctuation, bracketed classes with ranges, and the postfix operators
    [+], [*] and [?].  Groups, alternation and counted repetition are not
    covered: [re_compile] answers [None] for them. *)

Inductive compile_mode : Type :=
  | Top
  | InClass (negated : bool) (ranges : list (ascii * ascii)).

Definition is_punctuation (c : ascii) : bool :=
  let n := N_of_ascii c in
  ((n <? 128) && negb (((48 <=? n) && (n <=? 57)) || ((65 <=? n) && (n <=? 90))
                       || ((97 <=? n) && (n <=? 122))))%N.

Definition unsupported_top (c : ascii) : bool :=
  bool_decide (c ∈ ["("; ")"; "|"; "{"; "}"; "]"]%char).

(** [atoms] holds the compiled atoms so far, the last one first. *)
Definition postfix (op : regex → regex) (atoms : list regex) : option (list regex) :=
  match atoms with
  | a :: atoms' =>
      match a with
      | Bol | Eol => None
      | _ => Some (op a :: atoms')
      end
  | [] => None
  end.

Fixpoint compile_atoms (s : string) (mode : compile_mode) (atoms : list regex)
    : option (list regex) :=
  match s with
  | EmptyString =>
      match mode with
      | Top => Some atoms
      | InClass _ _ => None
      end
  | String c s' =>
      match mode with
      | Top =>
          if Ascii.eqb c "\" then
            match s' with
            | String e s'' =>
                if is_punctuation e then compile_atoms s'' Top (Chr e :: atoms) else None
            | EmptyString => None
            end
          else if Ascii.eqb c "[" then
            match s' with
            | String "^" s'' => compile_atoms s'' (InClass true []) atoms
            | _ => compile_atoms s' (InClass false []) atoms
            end
          else if Ascii.eqb c "." then compile_atoms s' Top (AnyChr :: atoms)
          else if Ascii.eqb c "^" then compile_atoms s' Top (Bol :: atoms)
          else if Ascii.eqb c "$" then compile_atoms s' Top (Eol :: atoms)
          else if Ascii.eqb c "+" then
            atoms' ← postfix Plus atoms; compile_atoms s' Top atoms'
          else if Ascii.eqb c "*" then
            atoms' ← postfix Star atoms; compile_atoms s' Top atoms'
          else if Ascii.eqb c "?" then
            atoms' ← postfix Opt atoms; compile_atoms s' Top atoms'
          else if unsupported_top c then None
          else compile_atoms s' Top (Chr c :: atoms)
      | InClass negated ranges =>
          if Ascii.eqb c "]" then
            match ranges with
            | [] => compile_atoms s' (InClass negated [(c, c)]) atoms
            | _ => compile_atoms s' Top (Class negated ranges :: atoms)
            end
          else if Ascii.eqb c "\" then
            match s' with
            | String e s'' =>
                if is_punctuation e
                then compile_atoms s'' (InClass negated (ranges ++ [(e, e)])) atoms
                else None
            | EmptyString => None
            end
          else
            match s' with
            | String "-" (String hi s'') =>
                if Ascii.eqb hi "]"
                then compile_atoms s' (InClass negated (ranges ++ [(c, c)])) atoms
                else if Ascii.eqb hi "\" then None
                else if (N_of_ascii c <=? N_of_ascii hi)%N
                then compile_atoms s'' (InClass negated (ranges ++ [(c, hi)])) atoms
                else None
            | _ => compile_atoms s' (InClass negated (ranges ++ [(c, c)])) atoms
            end
      end
  end.

Definition sequence (atoms : list regex) : regex :=
  foldr Cat Eps atoms.

Definition re_compile (pattern : string) : option regex :=
  (λ atoms, sequence (rev atoms)) <$> compile_atoms pattern Top [].

(** The default of the setting [BOUNCY_SUBSCRIBE_DOMAIN_REGEX] (line 133). *)
Definition default_pattern_text : string := "sns.[a-z0-9\-]+.amazonaws.com$".


Definition chars (s : string) : list regex := Chr <$> list_ascii_of_string s.

Definition sns_label_class : regex :=
  Class false [("a", "z"); ("0", "9"); ("-", "-")]%char.

(** [default_pattern_text], compiled: every dot is the wildcard. *)
Definition default_pattern : regex :=
  sequence (chars "sns" ++ [AnyChr; Plus sns_label_class; AnyChr] ++ chars "amazonaws"
            ++ [AnyChr] ++ chars "com" ++ [Eol]).

(** ** The world the functions act on

    The Django cache registry maps a cache alias to a store of entries;
    [history] records what the functions did to the outside, the latest
    event first. *)

Inductive log_level : Type := ERROR | WARNING | INFO.

Inductive log_arg : Type :=
  | ArgStr (s : string)
  | ArgBytes (b : bytes).

Inductive event : Type :=
  | Request (url : string)
  | Log (level : log_level) (msg : string) (arg : log_arg)
  | Signal (sender : string) (signal_result : bytes) (notification : payload).

Record world : Type := World {
  caches : gmap string (gmap string bytes);
  history : list event
}.

Definition requests (h : list event) : list string :=
  omap (λ e, match e with Request u => Some u | _ => None end) h.

Definition signals (h : list event) : list (bytes * payload) :=
  omap (λ e, match e with Signal _ r n => Some (r, n) | _ => None end) h.

(** Computations: a result or an exception, and the world afterwards. *)
Definition M (A : Type) : Type := world → result A * world.

Definition ret {A : Type} (a : A) : M A := λ w, (Returned a, w).
Definition raise {A : Type} (e : exn) : M A := λ w, (Raised e, w).
Definition lift {A : Type} (r : result A) : M A := λ w, (r, w).

Definition bind {A B : Type} (m : M A) (k : A → M B) : M B :=
  λ w, match m w with
       | (Returned a, w') => k a w'
       | (Raised e, w') => (Raised e, w')
       end.

Declare Scope py_scope.
Delimit Scope py_scope with py.
Notation "x <- m ;; k" := (bind m (λ x, k))
  (at level 100, m at next level, right associativity) : py_scope.
Notation "m ;;; k" := (bind m (λ _, k))
  (at level 100, right associativity) : py_scope.

(** [try: body except ...: handler]: [handler] decides what is caught. *)
Definition try_except {A : Type} (body : M A) (handler : exn → M A) : M A :=
  λ w, match body w with
       | (Returned a, w') => (Returned a, w')
       | (Raised e, w') => handler e w'
       end.

Definition emit (e : event) : M unit :=
  λ w, (Returned tt, World (caches w) (e :: history w)).

Definition logger_error (msg : string) (arg : log_arg) : M unit := emit (Log ERROR msg arg).
Definition logger_warning (msg : string) (arg : log_arg) : M unit := emit (Log WARNING msg arg).
Definition logger_info (msg : string) (arg : log_arg) : M unit := emit (Log INFO msg arg).

(** [caches[alias]]: an alias that is not configured raises. *)
Definition caches_getitem (alias : string) : M string :=
  λ w, match caches w !! alias with
       | Some _ => (Returned alias, w)
       | None => (Raised (InvalidCacheBackendError alias), w)
       end.

Definition cache_get (alias key : string) : M (option bytes) :=
  λ w, (Returned (caches w !! alias ≫= λ store, store !! key), w).

Definition cache_set (alias key : string) (value : bytes) : M unit :=
  λ w, (Returned tt, World (alter (insert key value) alias (caches w)) (history w)).

(** Truth value of a cached entry: [None] and empty [bytes] are false. *)
Definition truthy (v : option bytes) : bool :=
  match v with
  | Some (_ :: _) => true
  | _ => false
  end.

(** ** Names bound by the imports

    [urllib] is the Python 3 package of that name.  Its attributes are
    the submodules that have been imported; the exception classes live in
    [urllib.error]. *)

Inductive exn_class : Type := HTTPErrorClass.

Inductive pyvalue : Type :=
  | PyModule (name : string)
  | PyClass (c : exn_class).

Definition isinstance (e : exn) (c : exn_class) : bool :=
  match c, e with
  | HTTPErrorClass, HTTPError _ => true
  | HTTPErrorClass, _ => false
  end.

Definition urllib_submodules : list string := ["error"; "parse"; "request"; "response"].

Definition urllib_getattr (name : string) : result pyvalue :=
  if bool_decide (name ∈ urllib_submodules) then Returned (PyModule ("urllib." ++ name))
  else Raised (AttributeError ("module 'urllib' has no attribute '" ++ name ++ "'")).

(** [except cls as error: handler] applied to a raised exception: the
    expression [cls] is evaluated when an exception reaches the clause. *)
Definition except_as {A : Type} (cls : result pyvalue) (handler : exn → M A) (e : exn) : M A :=
  match cls with
  | Raised e' => raise e'
  | Returned (PyClass c) => if isinstance e c then handler e else raise e
  | Returned (PyModule _) =>
      raise (TypeError "catching classes that do not inherit from BaseException is not allowed")
  end.

(** [error.read()] of an [HTTPError]: the body of the error response. *)
Definition error_read (e : exn) : bytes :=
  match e with
  | HTTPError body => body
  | _ => []
  end.

Inductive http_response : Type :=
  | HttpResponse (content : string)
  | HttpResponseBadRequest (content : string).

Definition status_code (r : http_response) : nat :=
  match r with
  | HttpResponse _ => 200
  | HttpResponseBadRequest _ => 400
  end.

Inductive hash_algorithm : Type := SHA256.

(** ** The module *)

Record settings_module : Type := Settings {
  BOUNCY_KEY_CACHE : option string;
  BOUNCY_SUBSCRIBE_DOMAIN_REGEX : option regex
}.

(** The libraries the module calls.  [urlopen history url] is
    [urlopen(url).read()]: the body, or the exception of the request, an
    [HTTPError] carrying the body of the error response.  [verify] is the
    method of the key object that [load_pem_public_key] returns; it
    returns nothing and raises when it rejects. *)
Record libraries : Type := Libraries {
  urlopen : list event → string → result bytes;
  pem_parse : bytes → list bytes;
  public_key : Type;
  load_pem_public_key : bytes → result public_key;
  verify : public_key → bytes → bytes → hash_algorithm → result unit;
  urlparse_netloc : string → result string;
  force_str : bytes → result string
}.

Section Utils.

Variable settings : settings_module.
Variable lib : libraries.

Local Open Scope py_scope.

Definition urlopen_read (url : string) : M bytes :=
  λ w, (urlopen lib (history w) url, World (caches w) (Request url :: history w)).

Definition grab_keyfile (cert_url : string) : M bytes :=
  key_cache <- caches_getitem (default "default" (BOUNCY_KEY_CACHE settings)) ;;
  pemfile <- cache_get key_cache cert_url ;;
  if negb (truthy pemfile) then
    pemfile <- urlopen_read cert_url ;;
    let certificates := pem_parse lib (smart_bytes pemfile) in
    if negb (Nat.eqb (length certificates) 1) then
      logger_error "Invalid Certificate File: URL %s" (ArgStr cert_url) ;;;
      raise (ValueError "Invalid Certificate File")
    else
      cache_set key_cache cert_url pemfile ;;;
      ret pemfile
  else ret (default [] pemfile).

Definition verify_notification (data : payload) : M bool :=
  cert_url <- lift (getitem data "SigningCertURL") ;;
  pemfile <- grab_keyfile cert_url ;;
  cert <- lift (load_pem_public_key lib (smart_bytes pemfile)) ;;
  sig_text <- lift (getitem data "Signature") ;;
  signature <- lift (decodebytes (force_bytes sig_text)) ;;
  type <- lift (getitem data "Type") ;;
  let hash_format := hash_format_of type in
  try_except
    (text <- lift (format hash_format data) ;;
     lift (verify lib cert signature (force_bytes text) SHA256) ;;;
     ret true)
    (λ _, ret false).

Definition approve_subscription (data : payload) : M http_response :=
  url <- lift (getitem data "SubscribeURL") ;;
  domain <- lift (urlparse_netloc lib url) ;;
  let pattern := default default_pattern (BOUNCY_SUBSCRIBE_DOMAIN_REGEX settings) in
  if negb (re_search pattern domain) then
    logger_error "Invalid Subscription Domain %s" (ArgStr url) ;;;
    ret (HttpResponseBadRequest "Improper Subscription Domain")
  else
    result <- try_except
      (result <- urlopen_read url ;;
       logger_info "Subscription Request Sent %s" (ArgStr url) ;;;
       ret result)
      (except_as (urllib_getattr "HTTPError") (λ error,
         let result := error_read error in
         logger_warning "HTTP Error Creating Subscription %s" (ArgBytes result) ;;;
         ret result)) ;;
    emit (Signal "bouncy_approve_subscription" result data) ;;;
    body <- lift (force_str lib result) ;;
    ret (HttpResponse body).

End Utils.

(** * Properties *)

(** ** Strings *)

Lemma string_length_app (a b : string) :
  String.length (a ++ b) = String.length a + String.length b.
Proof. induction a as [|c a IH]; simpl; [reflexivity | now rewrite IH]. Qed.

Lemma string_app_inv_tail (a b r : string) : a ++ r = b ++ r → a = b.
Proof.
  revert b; induction a as [|c a IH]; intros [|d b] H; simpl in H.
  - reflexivity.
  - apply (f_equal String.length) in H.
    rewrite !string_length_app in H; simpl in H; lia.
  - apply (f_equal String.length) in H.
    rewrite !string_length_app in H; simpl in H; lia.
  - injection H as -> H. f_equal. now apply IH.
Qed.

Lemma string_app_nil (b : string) : "" ++ b = b.
Proof. reflexivity. Qed.

Lemma string_app_cons (x : ascii) (a b : string) : String x a ++ b = String x (a ++ b).
Proof. reflexivity. Qed.

Lemma string_app_assoc (a b c : string) : (a ++ b) ++ c = a ++ (b ++ c).
Proof.
  induction a as [|x a IH]; [reflexivity|].
  rewrite !string_app_cons. now f_equal.
Qed.

Lemma string_app_inv_head (p a b : string) : p ++ a = p ++ b → a = b.
Proof. apply String.app_inj. Qed.

(** ** The canonical string *)

Definition nl : string := String newline "".

(** The layout of the claim: each name on a line of its own, its value on
    the next line, every line ended by one newline. *)
Definition field_lines (names values : list string) : string :=
  String.concat "" (zip_with (λ name value, name ++ nl ++ value ++ nl) names values).

Definition notification_order : list string :=
  ["Message"; "MessageId"; "Timestamp"; "TopicArn"; "Type"].

Definition subscription_order : list string :=
  ["Message"; "MessageId"; "SubscribeURL"; "Timestamp"; "Token"; "TopicArn"; "Type"].

Definition template_order (type : string) : list string :=
  if String.eqb type "Notification" then notification_order else subscription_order.

Lemma template_fields_notification :
  template_fields NOTIFICATION_HASH_FORMAT = notification_order.
Proof. reflexivity. Qed.

Lemma template_fields_subscription :
  template_fields SUBSCRIPTION_HASH_FORMAT = subscription_order.
Proof. reflexivity. Qed.

Lemma template_fields_hash_format (type : string) :
  template_fields (hash_format_of type) = template_order type.
Proof. unfold hash_format_of, template_order. now destruct (String.eqb type "Notification"). Qed.

Lemma substitute_lit (c : ascii) (segs : list segment) (data : payload) :
  substitute (Lit c :: segs) data
  = result_bind (substitute segs data) (λ r, Returned (String c r)).
Proof. reflexivity. Qed.

Lemma substitute_field (name value : string) (segs : list segment) (data : payload) :
  data !! name = Some value →
  substitute (Field name :: segs) data
  = result_bind (substitute segs data) (λ r, Returned (value ++ r)).
Proof. intros H. simpl. unfold getitem. now rewrite H. Qed.

Lemma substitute_missing (name : string) (segs : list segment) (data : payload) :
  data !! name = None → substitute (Field name :: segs) data = Raised (KeyError name).
Proof. intros H. simpl. unfold getitem. now rewrite H. Qed.

Definition notification_segments : list segment :=
  Eval vm_compute in default [] (parse_template NOTIFICATION_HASH_FORMAT None).

Definition subscription_segments : list segment :=
  Eval vm_compute in default [] (parse_template SUBSCRIPTION_HASH_FORMAT None).

Lemma parse_notification :
  parse_template NOTIFICATION_HASH_FORMAT None = Some notification_segments.
Proof. reflexivity. Qed.

Lemma parse_subscription :
  parse_template SUBSCRIPTION_HASH_FORMAT None = Some subscription_segments.
Proof. reflexivity. Qed.

Ltac fill_template :=
  repeat first
    [ rewrite substitute_lit
    | erewrite substitute_field by eassumption ];
  simpl.

Ltac layout :=
  unfold field_lines, nl; simpl;
  rewrite ?string_app_assoc, ?string_app_cons, ?string_app_nil; reflexivity.

Lemma format_notification (data : payload) (m i t a ty : string) :
  data !! "Message" = Some m → data !! "MessageId" = Some i →
  data !! "Timestamp" = Some t → data !! "TopicArn" = Some a →
  data !! "Type" = Some ty →
  format NOTIFICATION_HASH_FORMAT data
  = Returned (field_lines notification_order [m; i; t; a; ty]).
Proof.
  intros Hm Hi Ht Ha Hty. unfold format.
  rewrite parse_notification. unfold notification_segments.
  fill_template. layout.
Qed.

Lemma format_subscription (data : payload) (m i u t k a ty : string) :
  data !! "Message" = Some m → data !! "MessageId" = Some i →
  data !! "SubscribeURL" = Some u → data !! "Timestamp" = Some t →
  data !! "Token" = Some k → data !! "TopicArn" = Some a →
  data !! "Type" = Some ty →
  format SUBSCRIPTION_HASH_FORMAT data
  = Returned (field_lines subscription_order [m; i; u; t; k; a; ty]).
Proof.
  intros Hm Hi Hu Ht Hk Ha Hty. unfold format.
  rewrite parse_subscription. unfold subscription_segments.
  fill_template. layout.
Qed.

(** C4. The canonical string comes from one of two fixed templates,
    chosen by [Type]; it lists the fields in the order of
    [notification_order] or of [subscription_order], each name on a line
    of its own followed by its value on the next line, every line ended
    by a single newline. *)
Theorem canonical_string_layout (data : payload) (type : string) (values : list string) :
  data !! "Type" = Some type →
  Forall2 (λ name value, data !! name = Some value) (template_order type) values →
  hash_format_of type ∈ [NOTIFICATION_HASH_FORMAT; SUBSCRIPTION_HASH_FORMAT]
  ∧ template_fields (hash_format_of type) = template_order type
  ∧ canonical_string data = Returned (field_lines (template_order type) values).
Proof.
  intros Hty Hvalues.
  split; [|split].
  - unfold hash_format_of. destruct (String.eqb type "Notification"); set_solver.
  - apply template_fields_hash_format.
  - unfold canonical_string, getitem. rewrite Hty. simpl.
    unfold hash_format_of, template_order in *.
    destruct (String.eqb type "Notification").
    + unfold notification_order in Hvalues.
      repeat match goal with
             | H : Forall2 _ (_ :: _) _ |- _ =>
                 apply Forall2_cons_inv_l in H as (? & ? & ? & H & ->)
             | H : Forall2 _ [] _ |- _ => apply Forall2_nil_inv_l in H as ->
             end.
      now apply format_notification.
    + unfold subscription_order in Hvalues.
      repeat match goal with
             | H : Forall2 _ (_ :: _) _ |- _ =>
                 apply Forall2_cons_inv_l in H as (? & ? & ? & H & ->)
             | H : Forall2 _ [] _ |- _ => apply Forall2_nil_inv_l in H as ->
             end.
      now apply format_subscription.
Qed.

(** *** Determinism and sensitivity *)

Lemma substitute_agree (segs : list segment) (d1 d2 : payload) :
  Forall (λ name, d1 !! name = d2 !! name) (fields_of segs) →
  substitute segs d1 = substitute segs d2.
Proof.
  induction segs as [|[c|name] segs IH]; intros Hagree; simpl.
  - reflexivity.
  - now rewrite IH.
  - change (fields_of (Field name :: segs)) with (name :: fields_of segs) in Hagree.
    apply Forall_cons in Hagree as [Hname Hrest].
    unfold getitem. rewrite Hname, (IH Hrest). reflexivity.
Qed.

Lemma substitute_returned_inv_lit (c : ascii) (segs : list segment) (d : payload) (s : string) :
  substitute (Lit c :: segs) d = Returned s →
  ∃ r, substitute segs d = Returned r ∧ s = String c r.
Proof.
  simpl. destruct (substitute segs d) as [r|e]; simpl; [|discriminate].
  intros [= <-]. now exists r.
Qed.

Lemma substitute_returned_inv_field (name : string) (segs : list segment) (d : payload)
    (s : string) :
  substitute (Field name :: segs) d = Returned s →
  ∃ v r, d !! name = Some v ∧ substitute segs d = Returned r ∧ s = v ++ r.
Proof.
  simpl. unfold getitem. destruct (d !! name) as [v|]; simpl; [|discriminate].
  destruct (substitute segs d) as [r|e]; simpl; [|discriminate].
  intros [= <-]. now exists v, r.
Qed.

(** Two payloads that differ in one field of the template, and in no
    other, are never given the same text. *)
Lemma substitute_sensitive (segs : list segment) (d1 d2 : payload) (k c1 c2 : string) :
  NoDup (fields_of segs) →
  k ∈ fields_of segs →
  d1 !! k ≠ d2 !! k →
  Forall (λ name, name ≠ k → d1 !! name = d2 !! name) (fields_of segs) →
  substitute segs d1 = Returned c1 →
  substitute segs d2 = Returned c2 →
  c1 ≠ c2.
Proof.
  revert c1 c2.
  induction segs as [|[c|name] segs IH]; intros c1 c2 Hnodup Hk Hdiff Hrest H1 H2.
  - inversion Hk.
  - apply substitute_returned_inv_lit in H1 as (r1 & H1 & ->).
    apply substitute_returned_inv_lit in H2 as (r2 & H2 & ->).
    intros [= Heq]. revert Heq. now apply IH.
  - change (fields_of (Field name :: segs)) with (name :: fields_of segs) in *.
    apply NoDup_cons in Hnodup as [Hfresh Hnodup].
    apply Forall_cons in Hrest as [Hname Hrest].
    apply substitute_returned_inv_field in H1 as (v1 & r1 & Hv1 & H1 & ->).
    apply substitute_returned_inv_field in H2 as (v2 & r2 & Hv2 & H2 & ->).
    destruct (decide (name = k)) as [->|Hne].
    + assert (Hsame : substitute segs d1 = substitute segs d2).
      { apply substitute_agree. rewrite Forall_forall in Hrest |- *.
        intros f Hf. apply Hrest; [exact Hf|]. intros ->. contradiction. }
      rewrite H1, H2 in Hsame. injection Hsame as ->.
      intros Heq. apply string_app_inv_tail in Heq. congruence.
    + apply elem_of_cons in Hk as [->|Hk]; [contradiction|].
      specialize (Hname Hne). rewrite Hv1, Hv2 in Hname. injection Hname as ->.
      intros Heq. apply string_app_inv_head in Heq. revert Heq. now apply IH.
Qed.

Lemma parse_hash_format (type : string) :
  ∃ segs, parse_template (hash_format_of type) None = Some segs
          ∧ fields_of segs = template_order type.
Proof.
  unfold hash_format_of, template_order.
  destruct (String.eqb type "Notification"); eexists; split; reflexivity.
Qed.

Lemma template_order_NoDup (type : string) : NoDup (template_order type).
Proof.
  unfold template_order.
  destruct (String.eqb type "Notification");
    refine (bool_decide_unpack _ _); vm_compute; exact I.
Qed.

(** Two notifications that differ in [Message] and in [MessageId] and
    yet have one canonical string: a value may hold a line break. *)
Definition collision_a : payload :=
  {[ "Message" := "a" ++ nl ++ "MessageId" ++ nl ++ "b";
     "MessageId" := "c";
     "Timestamp" := "2023-05-01T12:00:00.000Z";
     "TopicArn" := "arn:aws:sns:us-east-1:123456789012:bounces";
     "Type" := "Notification" ]}.

Definition collision_b : payload :=
  {[ "Message" := "a";
     "MessageId" := "b" ++ nl ++ "MessageId" ++ nl ++ "c";
     "Timestamp" := "2023-05-01T12:00:00.000Z";
     "TopicArn" := "arn:aws:sns:us-east-1:123456789012:bounces";
     "Type" := "Notification" ]}.

(** C5, as stated, fails: [collision_a] and [collision_b] have the same
    [Type] and differ in two templated fields, and their canonical
    strings are equal. *)
Lemma canonical_string_collision :
  collision_a !! "Type" = collision_b !! "Type"
  ∧ collision_a !! "Message" ≠ collision_b !! "Message"
  ∧ collision_a !! "MessageId" ≠ collision_b !! "MessageId"
  ∧ (∃ text, canonical_string collision_a = Returned text
             ∧ canonical_string collision_b = Returned text).
Proof.
  split; [reflexivity|].
  split; [vm_compute; discriminate|].
  split; [vm_compute; discriminate|].
  eexists. split; vm_compute; reflexivity.
Qed.

(** C5, amended.  The canonical string depends on the templated fields
    only: a payload [d2] that agrees with [d1] on them has the same
    string.  A payload [d3] of the same [Type] that differs from [d1] in
    exactly one templated field has a different one. *)
Theorem canonical_string_deterministic_sensitive
    (d1 d2 d3 : payload) (type k text : string) :
  d1 !! "Type" = Some type →
  d3 !! "Type" = Some type →
  Forall (λ name, d2 !! name = d1 !! name) (template_order type) →
  k ∈ template_order type →
  d3 !! k ≠ d1 !! k →
  Forall (λ name, name ≠ k → d3 !! name = d1 !! name) (template_order type) →
  canonical_string d1 = Returned text →
  canonical_string d2 = Returned text ∧ canonical_string d3 ≠ Returned text.
Proof.
  intros Hty1 Hty3 Hagree Hk Hdiff Hrest Hbuilt.
  destruct (parse_hash_format type) as (segs & Hparse & Hfields).
  assert (Hty2 : d2 !! "Type" = Some type).
  { rewrite <- Hty1. rewrite Forall_forall in Hagree. apply Hagree.
    unfold template_order, notification_order, subscription_order.
    destruct (String.eqb type "Notification"); set_solver. }
  unfold canonical_string, getitem in *.
  rewrite Hty1 in Hbuilt. rewrite Hty2, Hty3. simpl in *.
  unfold format in *. rewrite Hparse in *. rewrite <- Hfields in *.
  split.
  - rewrite <- Hbuilt. now apply substitute_agree.
  - intros Hbuilt3. revert Hbuilt3 Hbuilt.
    intros H3 H1. refine (substitute_sensitive segs d3 d1 k text text _ Hk Hdiff Hrest H3 H1 eq_refl).
    rewrite Hfields. apply template_order_NoDup.
Qed.

(** ** The libraries, closer up

    Two calls into the libraries are decided by what kind of object the
    library hands back, which the record [libraries] does not show: the
    class of a parsed PEM block, and the class of a loaded public key. *)

Fixpoint starts_with (marker b : bytes) : bool :=
  match marker, b with
  | [], _ => true
  | m :: marker', x :: b' => Byte.eqb m x && starts_with marker' b'
  | _ :: _, [] => false
  end.

(** The objects of [pem.parse] hold the text of their block; the class
    of an object follows the label of its first line.  [pem.parse] makes
    an object of every block it knows: certificates, keys, requests,
    revocation lists. *)
Definition is_certificate (block : bytes) : bool :=
  starts_with (force_bytes "-----BEGIN CERTIFICATE-----") block
  || starts_with (force_bytes "-----BEGIN TRUSTED CERTIFICATE-----") block.

(** The public keys that [load_pem_public_key] can return. *)
Inductive key_type : Type :=
  | RSAPublicKey
  | DSAPublicKey
  | EllipticCurvePublicKey
  | Ed25519PublicKey
  | Ed448PublicKey
  | X25519PublicKey
  | X448PublicKey
  | DHPublicKey.

(** The primitives of [cryptography]: the loader, the RSA check with
    PKCS#1 v1.5 padding, [verify(signature, data, PKCS1v15(), algorithm)]
    of an RSA key, and the DSA check, [verify(signature, data,
    algorithm)] of a DSA key. *)
Record cryptography : Type := Cryptography {
  crypto_key : Type;
  key_kind : crypto_key → key_type;
  crypto_load : bytes → result crypto_key;
  rsa_pkcs1v15_verify : crypto_key → bytes → bytes → hash_algorithm → result unit;
  dsa_verify : crypto_key → bytes → bytes → hash_algorithm → result unit
}.

(** [cert.verify(signature=..., data=..., algorithm=...)], the call of
    lines 110-114, by the class of [cert].  An RSA key wants a [padding]
    argument as well; the parameter of an elliptic-curve key is called
    [signature_algorithm]; the Edwards-curve keys take no algorithm; the
    exchange keys have no [verify].  The keywords fit the DSA key only. *)
Definition verify_keywords (C : cryptography) (cert : crypto_key C)
    (signature data : bytes) (algorithm : hash_algorithm) : result unit :=
  match key_kind C cert with
  | RSAPublicKey => Raised (TypeError "verify() missing required argument 'padding'")
  | DSAPublicKey => dsa_verify C cert signature data algorithm
  | EllipticCurvePublicKey | Ed25519PublicKey | Ed448PublicKey =>
      Raised (TypeError "verify() got an unexpected keyword argument 'algorithm'")
  | X25519PublicKey | X448PublicKey | DHPublicKey =>
      Raised (AttributeError "object has no attribute 'verify'")
  end.

(** The libraries, with [cryptography] in the place of the key loader
    and of the call of [verify]. *)
Definition with_cryptography (C : cryptography) (lib : libraries) : libraries :=
  {| urlopen := urlopen lib;
     pem_parse := pem_parse lib;
     public_key := crypto_key C;
     load_pem_public_key := crypto_load C;
     verify := verify_keywords C;
     urlparse_netloc := urlparse_netloc lib;
     force_str := force_str lib |}.

(** ** A test double of the libraries

    A small closed world to run the functions in.  Behind [urlopen] are
    the certificate that SNS serves, two files that hold a public key, an
    RSA one and a DSA one, and a confirmation endpoint.  The PEM parser
    looks for the opening marker of a block; the key loader takes a
    [PUBLIC KEY] block and refuses anything else, a certificate included;
    the signature of a message under a key is a one-byte checksum, for
    the RSA and for the DSA check alike.  The fixture stands in for the
    libraries wherever a statement is evaluated. *)
Module Fixture.

Fixpoint pem_blocks (b : bytes) : list bytes :=
  match b with
  | [] => []
  | _ :: b' =>
      if starts_with (force_bytes "-----BEGIN ") b then b :: pem_blocks b' else pem_blocks b'
  end.

Definition certificate : bytes :=
  force_bytes ("-----BEGIN CERTIFICATE-----" ++ nl ++ "MIIFdjCCBF6gAwIBAgIQ" ++ nl
               ++ "-----END CERTIFICATE-----" ++ nl).

Definition public_key_block (body : string) : bytes :=
  force_bytes ("-----BEGIN PUBLIC KEY-----" ++ nl ++ body ++ nl
               ++ "-----END PUBLIC KEY-----" ++ nl).

Definition key_file : bytes := public_key_block "MIIBIjANBgkqhkiG9w0BAQEFAAOCAQ8A".
Definition dsa_key_file : bytes := public_key_block "MIIDQjCCAjUGByqGSM44BAEwggIoAoIB".

Definition cert_url : string :=
  "https://sns.us-east-1.amazonaws.com/SimpleNotificationService-0123.pem".
Definition certificate_url : string :=
  "https://sns.us-east-1.amazonaws.com/SimpleNotificationService-0123.crt".
Definition dsa_url : string := "https://keys.example.net/dsa.pem".
Definition two_certs_url : string := "https://sns.us-east-1.amazonaws.com/two.pem".
Definition empty_url : string := "https://sns.us-east-1.amazonaws.com/empty.pem".
Definition garbage_url : string := "https://sns.us-east-1.amazonaws.com/garbage.pem".
Definition confirm_url : string :=
  "https://sns.us-east-1.amazonaws.com/?Action=ConfirmSubscription&Token=2336412f37fb".
Definition lookalike_url : string :=
  "https://sns-us-east-1-amazonaws.com/?Action=ConfirmSubscription".

Definition error_body : bytes := force_bytes "<ErrorResponse>InvalidParameter</ErrorResponse>".

Definition urlopen_stub (_ : list event) (url : string) : result bytes :=
  if String.eqb url cert_url then Returned key_file
  else if String.eqb url certificate_url then Returned certificate
  else if String.eqb url dsa_url then Returned dsa_key_file
  else if String.eqb url two_certs_url then Returned (certificate ++ certificate)%list
  else if String.eqb url empty_url then Returned []
  else if String.eqb url confirm_url then Raised (HTTPError error_body)
  else if String.eqb url lookalike_url then Returned (force_bytes "phished")
  else Raised (URLError "no route to host").

Definition load_key_stub (pem : bytes) : result bytes :=
  if starts_with (force_bytes ("-----BEGIN PUBLIC KEY-----" ++ nl)) pem
  then Returned pem
  else Raised (ValueError "Unable to load PEM file").

Definition key_kind_stub (key : bytes) : key_type :=
  if starts_with (force_bytes ("-----BEGIN PUBLIC KEY-----" ++ nl ++ "MIIBIj")) key
  then RSAPublicKey
  else if starts_with (force_bytes ("-----BEGIN PUBLIC KEY-----" ++ nl ++ "MIIDQj")) key
  then DSAPublicKey
  else EllipticCurvePublicKey.

Definition checksum (b : bytes) : Byte.byte :=
  byte_of_N (foldr (λ x acc, (Byte.to_N x + acc) mod 256)%N 0%N b).

Definition checksum_verify (key signature data : bytes) (_ : hash_algorithm) : result unit :=
  match signature with
  | [s] => if Byte.eqb s (checksum (key ++ data)%list) then Returned tt else Raised InvalidSignature
  | _ => Raised InvalidSignature
  end.

Definition crypto : cryptography :=
  {| crypto_key := bytes;
     key_kind := key_kind_stub;
     crypto_load := load_key_stub;
     rsa_pkcs1v15_verify := checksum_verify;
     dsa_verify := checksum_verify |}.

(** The host part of an absolute URL: what follows the two slashes, up
    to the next [/], [?] or [#]. *)
Fixpoint take_host (s : string) : string :=
  match s with
  | EmptyString => ""
  | String c s' =>
      if bool_decide (c ∈ ["/"; "?"; "#"]%char) then "" else String c (take_host s')
  end.

Fixpoint netloc_stub_from (s : string) : string :=
  match s with
  | String "/" (String "/" s') => take_host s'
  | String _ s' => netloc_stub_from s'
  | EmptyString => ""
  end.

Definition netloc_stub (url : string) : result string := Returned (netloc_stub_from url).

Definition force_str_stub (b : bytes) : result string :=
  if forallb (λ x, Byte.to_N x <? 128)%N b
  then Returned (string_of_list_ascii (ascii_of_byte <$> b))
  else Raised UnicodeDecodeError.

Definition lib : libraries :=
  {| urlopen := urlopen_stub;
     pem_parse := pem_blocks;
     public_key := crypto_key crypto;
     load_pem_public_key := crypto_load crypto;
     verify := verify_keywords crypto;
     urlparse_netloc := netloc_stub;
     force_str := force_str_stub |}.

Definition settings : settings_module :=
  {| BOUNCY_KEY_CACHE := None; BOUNCY_SUBSCRIBE_DOMAIN_REGEX := None |}.

(** A configured, empty [default] cache and no history. *)
Definition fresh : world := World {[ "default" := ∅ ]} [].

Definition notification : payload :=
  {[ "Type" := "Notification";
     "MessageId" := "22b80b92-fdea-4c2c-8f9d-bdfb0c7bf324";
     "TopicArn" := "arn:aws:sns:us-east-1:123456789012:bounces";
     "Message" := "Hello";
     "Timestamp" := "2023-05-01T12:00:00.000Z";
     "Signature" := "LQ==";
     "SigningCertURL" := cert_url ]}.

(** The same notification, signed under the DSA key. *)
Definition dsa_notification : payload :=
  <["SigningCertURL" := dsa_url]> (<["Signature" := "ig=="]> notification).

End Fixture.


(** ** [grab_keyfile] *)

Section Properties.

Variable settings : settings_module.
Variable lib : libraries.

Definition key_cache_alias : string := default "default" (BOUNCY_KEY_CACHE settings).

(** The entry of the certificate cache for a URL. *)
Definition cached (w : world) (cert_url : string) : option bytes :=
  caches w !! key_cache_alias ≫= λ store, store !! cert_url.

Lemma truthy_Some (v : option bytes) :
  truthy v = true → ∃ b, v = Some b ∧ b ≠ [].
Proof. destruct v as [[|x b]|]; simpl; try discriminate. intros _. now eexists. Qed.

Lemma grab_keyfile_hit (cert_url : string) (w : world) (pemfile : bytes) :
  cached w cert_url = Some pemfile → pemfile ≠ [] →
  grab_keyfile settings lib cert_url w = (Returned pemfile, w).
Proof.
  unfold cached, grab_keyfile, bind, caches_getitem, cache_get. fold key_cache_alias.
  destruct (caches w !! key_cache_alias) as [store|] eqn:Hstore; simpl; [|discriminate].
  rewrite Hstore. simpl. intros -> Hne.
  destruct pemfile; [contradiction|reflexivity].
Qed.

(** What a miss does, once the download has returned. *)
Lemma grab_keyfile_miss (cert_url : string) (w : world) (store : gmap string bytes)
    (body : bytes) :
  caches w !! key_cache_alias = Some store →
  truthy (store !! cert_url) = false →
  urlopen lib (history w) cert_url = Returned body →
  grab_keyfile settings lib cert_url w =
    if Nat.eqb (length (pem_parse lib (smart_bytes body))) 1
    then (Returned body,
          World (alter (insert cert_url body) key_cache_alias (caches w))
                (Request cert_url :: history w))
    else (Raised (ValueError "Invalid Certificate File"),
          World (caches w)
                (Log ERROR "Invalid Certificate File: URL %s" (ArgStr cert_url)
                 :: Request cert_url :: history w)).
Proof.
  intros Hstore Hmiss Hbody.
  unfold grab_keyfile, bind, caches_getitem, cache_get, urlopen_read. fold key_cache_alias.
  rewrite Hstore. simpl. rewrite Hstore. simpl. rewrite Hmiss. simpl. rewrite Hbody.
  destruct (Nat.eqb _ 1); reflexivity.
Qed.

(** Every way [grab_keyfile] can end. *)
Lemma grab_keyfile_cases (cert_url : string) (w : world) (r : result bytes) (w' : world) :
  grab_keyfile settings lib cert_url w = (r, w') →
  (caches w !! key_cache_alias = None ∧ w' = w
   ∧ r = Raised (InvalidCacheBackendError key_cache_alias))
  ∨ (∃ pemfile, cached w cert_url = Some pemfile ∧ pemfile ≠ []
                ∧ r = Returned pemfile ∧ w' = w)
  ∨ (∃ e, urlopen lib (history w) cert_url = Raised e ∧ r = Raised e
          ∧ caches w' = caches w)
  ∨ (∃ body, urlopen lib (history w) cert_url = Returned body
             ∧ length (pem_parse lib (smart_bytes body)) ≠ 1
             ∧ r = Raised (ValueError "Invalid Certificate File")
             ∧ caches w' = caches w)
  ∨ (∃ body, urlopen lib (history w) cert_url = Returned body
             ∧ length (pem_parse lib (smart_bytes body)) = 1
             ∧ r = Returned body
             ∧ caches w' = alter (insert cert_url body) key_cache_alias (caches w)
             ∧ is_Some (caches w !! key_cache_alias)).
Proof.
  destruct (caches w !! key_cache_alias) as [store|] eqn:Hstore.
  - destruct (truthy (store !! cert_url)) eqn:Hhit.
    + apply truthy_Some in Hhit as (pemfile & Hentry & Hne).
      rewrite (grab_keyfile_hit cert_url w pemfile).
      * intros [= <- <-]. right; left. exists pemfile.
        unfold cached. rewrite Hstore. simpl. auto.
      * unfold cached. now rewrite Hstore.
      * exact Hne.
    + destruct (urlopen lib (history w) cert_url) as [body|e] eqn:Hbody.
      * rewrite (grab_keyfile_miss cert_url w store body Hstore Hhit Hbody).
        destruct (Nat.eqb _ 1) eqn:Hone; intros [= <- <-].
        -- do 4 right. exists body. apply Nat.eqb_eq in Hone. simpl. eauto 10.
        -- do 3 right; left. exists body. apply Nat.eqb_neq in Hone. simpl. eauto 10.
      * unfold grab_keyfile, bind, caches_getitem, cache_get, urlopen_read.
        fold key_cache_alias. rewrite Hstore. simpl. rewrite Hstore. simpl.
        rewrite Hhit. simpl. rewrite Hbody. intros [= <- <-].
        do 2 right; left. exists e. auto.
  - unfold grab_keyfile, bind, caches_getitem. fold key_cache_alias. rewrite Hstore.
    intros [= <- <-]. left. auto.
Qed.

(** What the check of lines 83-88 does enforce.  On a cache miss, a
    downloaded file that does not parse into exactly one PEM object makes
    [grab_keyfile] raise [ValueError] and leaves every cache as it was;
    the downloaded bytes are stored, under the URL, only when the file
    parses into exactly one object. *)
Theorem grab_keyfile_rejects_certificate_file
    (cert_url : string) (w : world) (store : gmap string bytes) (body : bytes) :
  caches w !! key_cache_alias = Some store →
  truthy (store !! cert_url) = false →
  urlopen lib (history w) cert_url = Returned body →
  (length (pem_parse lib (smart_bytes body)) ≠ 1 →
     ∃ w', grab_keyfile settings lib cert_url w
           = (Raised (ValueError "Invalid Certificate File"), w')
           ∧ caches w' = caches w)
  ∧ (∀ r w', grab_keyfile settings lib cert_url w = (r, w') →
       caches w' ≠ caches w →
       length (pem_parse lib (smart_bytes body)) = 1
       ∧ r = Returned body
       ∧ caches w' = <[key_cache_alias := <[cert_url := body]> store]> (caches w)).
Proof.
  intros Hstore Hmiss Hbody.
  rewrite (grab_keyfile_miss cert_url w store body Hstore Hmiss Hbody).
  split.
  - intros Hcount. apply Nat.eqb_neq in Hcount. rewrite Hcount.
    eexists. split; reflexivity.
  - intros r w'. destruct (Nat.eqb _ 1) eqn:Hone; intros [= <- <-]; simpl.
    + intros _. apply Nat.eqb_eq in Hone. repeat split; [exact Hone|].
      apply map_eq. intros alias.
      destruct (decide (key_cache_alias = alias)) as [<-|Hne].
      * rewrite lookup_alter_eq, lookup_insert_eq, Hstore. reflexivity.
      * rewrite lookup_alter_ne, lookup_insert_ne by exact Hne. reflexivity.
    + intros Hchanged. now contradiction Hchanged.
Qed.

(** C6 fails on the code: lines 83-88 count the objects that [pem.parse]
    returns, of whatever class, although the comments above them speak
    of one certificate.  A downloaded file whose only block is not a
    certificate, a public key for one, is returned and stored in the
    cache; [ValueError] is not raised. *)
Theorem grab_keyfile_accepts_other_blocks
    (cert_url : string) (w : world) (store : gmap string bytes) (body block : bytes) :
  caches w !! key_cache_alias = Some store →
  truthy (store !! cert_url) = false →
  urlopen lib (history w) cert_url = Returned body →
  pem_parse lib (smart_bytes body) = [block] →
  is_certificate block = false →
  grab_keyfile settings lib cert_url w
  = (Returned body,
     World (<[key_cache_alias := <[cert_url := body]> store]> (caches w))
           (Request cert_url :: history w)).
Proof.
  intros Hstore Hmiss Hbody Hblocks _.
  rewrite (grab_keyfile_miss cert_url w store body Hstore Hmiss Hbody), Hblocks. simpl.
  f_equal. f_equal. apply map_eq. intros alias.
  destruct (decide (key_cache_alias = alias)) as [<-|Hne].
  - rewrite lookup_alter_eq, lookup_insert_eq, Hstore. reflexivity.
  - rewrite lookup_alter_ne, lookup_insert_ne by exact Hne. reflexivity.
Qed.

(** C8. Once [grab_keyfile] has returned the certificate of a URL, the
    cache holds it, and in every later world whose cache still holds that
    entry [grab_keyfile] returns the cached bytes and does nothing else:
    no request is made.  The PEM parser is taken to find no block in an
    empty file. *)
Theorem grab_keyfile_served_from_cache
    (cert_url : string) (w0 w1 w2 : world) (pemfile : bytes) :
  pem_parse lib [] = [] →
  grab_keyfile settings lib cert_url w0 = (Returned pemfile, w1) →
  cached w2 cert_url = Some pemfile →
  cached w1 cert_url = Some pemfile
  ∧ grab_keyfile settings lib cert_url w2 = (Returned pemfile, w2).
Proof.
  intros Hempty Hfetch Hretained.
  apply grab_keyfile_cases in Hfetch
    as [(_ & _ & [=]) | [(b & Hentry & Hne & [= <-] & ->)
       | [(e & _ & [=] & _) | [(b & _ & _ & [=] & _)
       | (b & _ & Hone & [= <-] & Hcaches & [store Hstore])]]]].
  - split; [exact Hentry|]. now apply grab_keyfile_hit.
  - assert (Hne : pemfile ≠ []).
    { intros ->. unfold smart_bytes in Hone. rewrite Hempty in Hone. discriminate. }
    split; [|now apply grab_keyfile_hit].
    unfold cached. rewrite Hcaches, lookup_alter_eq, Hstore. simpl.
    apply lookup_insert_eq.
Qed.

(** ** [verify_notification] *)

(** The verdict of the guarded block (lines 109-117): [True] when the
    text was built and the key accepted the signature for it, [False]
    when either raised. *)
Definition accepts (cert : public_key lib) (signature : bytes) (text : result string) : bool :=
  match text with
  | Returned t =>
      match verify lib cert signature (force_bytes t) SHA256 with
      | Returned _ => true
      | Raised _ => false
      end
  | Raised _ => false
  end.

Ltac run_verify :=
  unfold verify_notification, bind, lift, ret, try_except; simpl.

(** Once the key is loaded, the signature decoded and [Type] read,
    nothing raises any more. *)
Lemma verify_notification_verdict
    (data : payload) (w w1 : world) (cert_url sig_text type : string)
    (pemfile signature : bytes) (cert : public_key lib) :
  data !! "SigningCertURL" = Some cert_url →
  grab_keyfile settings lib cert_url w = (Returned pemfile, w1) →
  load_pem_public_key lib (smart_bytes pemfile) = Returned cert →
  data !! "Signature" = Some sig_text →
  decodebytes (force_bytes sig_text) = Returned signature →
  data !! "Type" = Some type →
  verify_notification settings lib data w
  = (Returned (accepts cert signature (format (hash_format_of type) data)), w1).
Proof.
  intros Hurl Hgrab Hload Hsig Hdecode Htype.
  run_verify. unfold getitem.
  rewrite Hurl, Hgrab, Hload, Hsig, Hdecode, Htype. unfold accepts.
  destruct (format (hash_format_of type) data) as [text|e]; [|reflexivity].
  destruct (verify lib cert signature (force_bytes text) SHA256); reflexivity.
Qed.

(** The steps behind an answer. *)
Lemma verify_notification_returned_inv (data : payload) (w w' : world) (b : bool) :
  verify_notification settings lib data w = (Returned b, w') →
  ∃ cert_url pemfile cert sig_text signature type,
    data !! "SigningCertURL" = Some cert_url
    ∧ grab_keyfile settings lib cert_url w = (Returned pemfile, w')
    ∧ load_pem_public_key lib (smart_bytes pemfile) = Returned cert
    ∧ data !! "Signature" = Some sig_text
    ∧ decodebytes (force_bytes sig_text) = Returned signature
    ∧ data !! "Type" = Some type
    ∧ b = accepts cert signature (format (hash_format_of type) data).
Proof.
  run_verify. unfold getitem.
  destruct (data !! "SigningCertURL") as [cert_url|]; [|discriminate].
  destruct (grab_keyfile settings lib cert_url w) as [[pemfile|e] w1] eqn:Hgrab;
    [|discriminate].
  destruct (load_pem_public_key lib (smart_bytes pemfile)) as [cert|e] eqn:Hload;
    [|discriminate].
  destruct (data !! "Signature") as [sig_text|]; [|discriminate].
  destruct (decodebytes (force_bytes sig_text)) as [signature|e] eqn:Hdecode;
    [|discriminate].
  destruct (data !! "Type") as [type|]; [|discriminate].
  intros H. exists cert_url, pemfile, cert, sig_text, signature, type.
  unfold accepts.
  destruct (format (hash_format_of type) data) as [text|e];
    [destruct (verify lib cert signature (force_bytes text) SHA256)|];
    injection H as <- <-; auto 10.
Qed.

(** Steps 4 and 5 fail closed: a template field that is absent, or a
    signature that the key rejects, gives [False]. *)
Lemma verify_notification_fails_closed
    (data : payload) (w w1 : world) (cert_url sig_text type : string)
    (pemfile signature : bytes) (cert : public_key lib) :
  data !! "SigningCertURL" = Some cert_url →
  grab_keyfile settings lib cert_url w = (Returned pemfile, w1) →
  load_pem_public_key lib (smart_bytes pemfile) = Returned cert →
  data !! "Signature" = Some sig_text →
  decodebytes (force_bytes sig_text) = Returned signature →
  data !! "Type" = Some type →
  (∀ text, canonical_string data = Returned text →
           ∃ e, verify lib cert signature (force_bytes text) SHA256 = Raised e) →
  verify_notification settings lib data w = (Returned false, w1).
Proof.
  intros Hurl Hgrab Hload Hsig Hdecode Htype Hfail.
  rewrite (verify_notification_verdict data w w1 cert_url sig_text type
             pemfile signature cert) by assumption.
  unfold canonical_string, getitem in Hfail. rewrite Htype in Hfail. simpl in Hfail.
  unfold accepts. destruct (format (hash_format_of type) data) as [text|e]; [|reflexivity].
  destruct (Hfail text eq_refl) as [e ->]. reflexivity.
Qed.

(** C1 fails on the code: the key is loaded, the signature decoded and
    [Type] read before the [try] block (lines 101-104), so an exception
    of one of these steps leaves [verify_notification] as it is; [False]
    is not returned. *)
Theorem verify_notification_propagates
    (data : payload) (w w1 : world) (cert_url : string) (pemfile : bytes) (e : exn) :
  data !! "SigningCertURL" = Some cert_url →
  grab_keyfile settings lib cert_url w = (Returned pemfile, w1) →
  load_pem_public_key lib (smart_bytes pemfile) = Raised e
  ∨ (∃ cert sig_text,
       load_pem_public_key lib (smart_bytes pemfile) = Returned cert
       ∧ data !! "Signature" = Some sig_text
       ∧ (decodebytes (force_bytes sig_text) = Raised e
          ∨ (∃ signature, decodebytes (force_bytes sig_text) = Returned signature
                          ∧ data !! "Type" = None ∧ e = KeyError "Type"))) →
  verify_notification settings lib data w = (Raised e, w1).
Proof.
  intros Hurl Hgrab
    [Hload | (cert & sig_text & Hload & Hsig
              & [Hdecode | (signature & Hdecode & Htype & ->)])];
    run_verify; unfold getitem; rewrite Hurl, Hgrab, Hload; [reflexivity| |].
  - now rewrite Hsig, Hdecode.
  - now rewrite Hsig, Hdecode, Htype.
Qed.

(** C10. A [Type] other than the string [Notification] selects the
    subscription template, whatever it is: with the key loaded and the
    signature decoded, [verify_notification] answers with the verdict on
    the subscription template filled from the payload, and does not
    raise. *)
Theorem verify_notification_other_types
    (data : payload) (w w1 : world) (cert_url sig_text type : string)
    (pemfile signature : bytes) (cert : public_key lib) :
  data !! "Type" = Some type →
  type ≠ "Notification" →
  data !! "SigningCertURL" = Some cert_url →
  grab_keyfile settings lib cert_url w = (Returned pemfile, w1) →
  load_pem_public_key lib (smart_bytes pemfile) = Returned cert →
  data !! "Signature" = Some sig_text →
  decodebytes (force_bytes sig_text) = Returned signature →
  hash_format_of type = SUBSCRIPTION_HASH_FORMAT
  ∧ template_fields (hash_format_of type) = subscription_order
  ∧ canonical_string data = format SUBSCRIPTION_HASH_FORMAT data
  ∧ verify_notification settings lib data w
    = (Returned (accepts cert signature (format SUBSCRIPTION_HASH_FORMAT data)), w1).
Proof.
  intros Htype Hother Hurl Hgrab Hload Hsig Hdecode.
  assert (Hformat : hash_format_of type = SUBSCRIPTION_HASH_FORMAT).
  { unfold hash_format_of. apply String.eqb_neq in Hother. now rewrite Hother. }
  repeat split.
  - exact Hformat.
  - now rewrite Hformat.
  - unfold canonical_string, getitem. rewrite Htype. simpl. now rewrite Hformat.
  - rewrite <- Hformat.
    now apply (verify_notification_verdict data w w1 cert_url sig_text type
                 pemfile signature cert).
Qed.

(** ** [approve_subscription] *)

Definition subscribe_domain_pattern : regex :=
  default default_pattern (BOUNCY_SUBSCRIBE_DOMAIN_REGEX settings).

Ltac run_approve :=
  unfold approve_subscription, bind, lift, ret, raise, try_except, emit, urlopen_read,
    logger_error, logger_info, logger_warning, getitem;
  fold subscribe_domain_pattern; simpl.


(** X27. A matching host is sent the GET; when it returns a body that can
    be decoded, the body is signalled with the payload and wrapped in a
    response of status 200. *)
Lemma approve_subscription_confirms
    (data : payload) (w : world) (url domain text : string) (body : bytes) :
  data !! "SubscribeURL" = Some url →
  urlparse_netloc lib url = Returned domain →
  re_search subscribe_domain_pattern domain = true →
  urlopen lib (history w) url = Returned body →
  force_str lib body = Returned text →
  approve_subscription settings lib data w
  = (Returned (HttpResponse text),
     World (caches w)
       (Signal "bouncy_approve_subscription" body data
        :: Log INFO "Subscription Request Sent %s" (ArgStr url)
        :: Request url :: history w)).
Proof.
  intros Hurl Hdomain Hmatch Hbody Htext.
  run_approve. rewrite Hurl, Hdomain, Hmatch. simpl. rewrite Hbody. simpl.
  now rewrite Htext.
Qed.

(** C9 fails on the code: the clause [except urllib.HTTPError] (line 142)
    looks the class up in the package [urllib], which does not have it.
    When the GET raises [HTTPError] the lookup raises [AttributeError],
    which leaves [approve_subscription]: the body is not captured, no
    signal is sent and no response is returned. *)
Theorem approve_subscription_http_error
    (data : payload) (w : world) (url domain : string) (body : bytes) :
  data !! "SubscribeURL" = Some url →
  urlparse_netloc lib url = Returned domain →
  re_search subscribe_domain_pattern domain = true →
  urlopen lib (history w) url = Raised (HTTPError body) →
  ∃ w',
    approve_subscription settings lib data w
    = (Raised (AttributeError "module 'urllib' has no attribute 'HTTPError'"), w')
    ∧ requests (history w') = url :: requests (history w)
    ∧ signals (history w') = signals (history w).
Proof.
  intros Hurl Hdomain Hmatch Hbody.
  run_approve. rewrite Hurl, Hdomain, Hmatch. simpl. rewrite Hbody.
  eexists. repeat split; reflexivity.
Qed.

End Properties.

(** ** The default allow-list pattern *)

(** The pattern of the claim, with every dot escaped. *)
Definition documented_pattern_text : string := "sns\.[a-z0-9-]+\.amazonaws\.com$".

Definition documented_pattern : regex :=
  sequence (chars "sns." ++ [Plus sns_label_class] ++ chars ".amazonaws.com" ++ [Eol]).

(** A host outside [amazonaws.com] that anyone can register. *)
Definition lookalike_host : string := "sns-us-east-1-amazonaws.com".

Definition ends_with (suffix s : string) : bool :=
  String.eqb suffix
    (String.substring (String.length s - String.length suffix) (String.length suffix) s).

(** C2 fails on the code: the default pattern of line 133 leaves its
    three dots unescaped, so each matches any character.  It is not the
    documented pattern, and it lets [lookalike_host] through, a host that
    does not end in [.amazonaws.com] and that the documented pattern
    refuses; [approve_subscription] then sends the GET to it. *)
Theorem default_pattern_dots_match_anything :
  re_compile default_pattern_text = Some default_pattern
  ∧ re_compile documented_pattern_text = Some documented_pattern
  ∧ default_pattern ≠ documented_pattern
  ∧ ends_with ".amazonaws.com" lookalike_host = false
  ∧ re_search documented_pattern lookalike_host = false
  ∧ re_search default_pattern lookalike_host = true
  ∧ (approve_subscription Fixture.settings Fixture.lib
       {[ "SubscribeURL" := Fixture.lookalike_url ]} Fixture.fresh).1
    = Returned (HttpResponse "phished")
  ∧ requests (history (approve_subscription Fixture.settings Fixture.lib
       {[ "SubscribeURL" := Fixture.lookalike_url ]} Fixture.fresh).2)
    = [Fixture.lookalike_url].
Proof.
  repeat split; try (vm_compute; reflexivity).
  vm_compute. discriminate.
Qed.

(** ** The signature check *)

(** [Signature] is no field of the templates. *)
Lemma format_ignores_signature (type value : string) (data : payload) :
  format (hash_format_of type) (<["Signature" := value]> data)
  = format (hash_format_of type) data.
Proof.
  destruct (parse_hash_format type) as (segs & Hparse & Hfields).
  unfold format. rewrite Hparse. apply substitute_agree. rewrite Hfields.
  unfold template_order, notification_order, subscription_order.
  destruct (String.eqb type "Notification");
    repeat constructor; now rewrite lookup_insert_ne.
Qed.

Section SignatureCheck.

Variable settings : settings_module.
Variable C : cryptography.
Variable lib : libraries.

Local Abbreviation libc := (with_cryptography C lib).

(** With an RSA key loaded, every payload is answered [False] once the
    signature is decoded and [Type] read: the call of [verify] raises
    [TypeError] before any signature is looked at. *)
Lemma verify_notification_rsa_key
    (data : payload) (w w1 : world) (cert_url sig_text type : string)
    (pemfile signature : bytes) (cert : crypto_key C) :
  data !! "SigningCertURL" = Some cert_url →
  grab_keyfile settings libc cert_url w = (Returned pemfile, w1) →
  crypto_load C (smart_bytes pemfile) = Returned cert →
  key_kind C cert = RSAPublicKey →
  data !! "Signature" = Some sig_text →
  decodebytes (force_bytes sig_text) = Returned signature →
  data !! "Type" = Some type →
  verify_notification settings libc data w = (Returned false, w1).
Proof.
  intros Hurl Hgrab Hload Hkind Hsig Hdecode Htype.
  rewrite (verify_notification_verdict settings libc data w w1 cert_url sig_text type
             pemfile signature cert) by assumption.
  unfold accepts. destruct (format (hash_format_of type) data); [|reflexivity].
  simpl. unfold verify_keywords. now rewrite Hkind.
Qed.

(** C3 fails on the code: the call of lines 110-114 passes the
    signature, the data and SHA-256, and no padding.  The [verify] of an
    RSA key cannot be called so, and the [TypeError] is caught with the
    rest; the RSA check with PKCS#1 v1.5 padding is never made.
    [verify_notification] returns [True] exactly when the file behind
    [SigningCertURL] holds a DSA key and that key accepts the decoded
    [Signature] for the UTF-8 bytes of the canonical string: [True] does
    not say that an RSA signature was checked. *)
Theorem verify_notification_true_iff_dsa (data : payload) (w w' : world) :
  verify_notification settings libc data w = (Returned true, w')
  ↔ ∃ cert_url pemfile cert sig_text signature text,
      data !! "SigningCertURL" = Some cert_url
      ∧ grab_keyfile settings libc cert_url w = (Returned pemfile, w')
      ∧ crypto_load C (smart_bytes pemfile) = Returned cert
      ∧ data !! "Signature" = Some sig_text
      ∧ decodebytes (force_bytes sig_text) = Returned signature
      ∧ canonical_string data = Returned text
      ∧ key_kind C cert = DSAPublicKey
      ∧ dsa_verify C cert signature (force_bytes text) SHA256 = Returned tt.
Proof.
  split.
  - intros Htrue.
    apply verify_notification_returned_inv in Htrue
      as (cert_url & pemfile & cert & sig_text & signature & type
          & Hurl & Hgrab & Hload & Hsig & Hdecode & Htype & Haccepts).
    unfold accepts in Haccepts.
    destruct (format (hash_format_of type) data) as [text|e] eqn:Hformat; [|discriminate].
    simpl in Haccepts, cert. unfold verify_keywords in Haccepts.
    destruct (key_kind C cert) eqn:Hkind; try discriminate.
    destruct (dsa_verify C cert signature (force_bytes text) SHA256) as [[]|e] eqn:Hdsa;
      [|discriminate].
    exists cert_url, pemfile, cert, sig_text, signature, text.
    repeat split; try assumption.
    unfold canonical_string, getitem. now rewrite Htype.
  - intros (cert_url & pemfile & cert & sig_text & signature & text
            & Hurl & Hgrab & Hload & Hsig & Hdecode & Hcanon & Hkind & Hdsa).
    unfold canonical_string, getitem in Hcanon.
    destruct (data !! "Type") as [type|] eqn:Htype; [|discriminate]. simpl in Hcanon.
    rewrite (verify_notification_verdict settings libc data w w' cert_url sig_text type
               pemfile signature cert) by assumption.
    unfold accepts. rewrite Hcanon. simpl. unfold verify_keywords. now rewrite Hkind, Hdsa.
Qed.

End SignatureCheck.

(** On the fixture.  [Fixture.notification] carries the signature that
    the RSA check with PKCS#1 v1.5 padding accepts under the key of its
    [SigningCertURL], and is answered [False].  The same notification
    signed under the DSA key is answered [True].  With the certificate
    that SNS serves behind [SigningCertURL], the key loader raises. *)
Lemma verify_notification_on_key_files :
  (∃ text, canonical_string Fixture.notification = Returned text
           ∧ rsa_pkcs1v15_verify Fixture.crypto Fixture.key_file [Byte.x2d]
               (force_bytes text) SHA256 = Returned tt)
  ∧ (verify_notification Fixture.settings Fixture.lib Fixture.notification Fixture.fresh).1
    = Returned false
  ∧ (verify_notification Fixture.settings Fixture.lib Fixture.dsa_notification
       Fixture.fresh).1
    = Returned true
  ∧ (verify_notification Fixture.settings Fixture.lib
       (<["SigningCertURL" := Fixture.certificate_url]> Fixture.notification)
       Fixture.fresh).1
    = Raised (ValueError "Unable to load PEM file").
Proof.
  split; [eexists; split; vm_compute; reflexivity|].
  repeat split; vm_compute; reflexivity.
Qed.

(** ** The statements at work on the fixture *)

Module Witnesses.
Import Fixture.

Definition after_fetch : world :=
  World {[ "default" := {[ cert_url := key_file ]} ]} [Request cert_url].

Definition unsubscribe : payload :=
  {[ "Type" := "UnsubscribeConfirmation";
     "MessageId" := "47138184-6831-46b8-8f7c-afc488602d7d";
     "Token" := "2336412f37fb687f5d51e6e241d09c805a5a57b30d712f79";
     "TopicArn" := "arn:aws:sns:us-east-1:123456789012:bounces";
     "Message" := "You have chosen to deactivate subscription";
     "SubscribeURL" := confirm_url;
     "Timestamp" := "2023-05-01T12:00:00.000Z";
     "Signature" := "LQ==";
     "SigningCertURL" := cert_url ]}.

Lemma canonical_string_layout_witness :
  hash_format_of "Notification" ∈ [NOTIFICATION_HASH_FORMAT; SUBSCRIPTION_HASH_FORMAT]
  ∧ template_fields (hash_format_of "Notification") = template_order "Notification"
  ∧ canonical_string notification
    = Returned (field_lines (template_order "Notification")
                  ["Hello"; "22b80b92-fdea-4c2c-8f9d-bdfb0c7bf324";
                   "2023-05-01T12:00:00.000Z";
                   "arn:aws:sns:us-east-1:123456789012:bounces"; "Notification"]).
Proof.
  apply (canonical_string_layout notification "Notification").
  - reflexivity.
  - repeat constructor.
Defined.

Lemma canonical_string_deterministic_sensitive_witness :
  canonical_string (<["Signature" := "AAAA"]> notification)
  = Returned (field_lines notification_order
                ["Hello"; "22b80b92-fdea-4c2c-8f9d-bdfb0c7bf324";
                 "2023-05-01T12:00:00.000Z";
                 "arn:aws:sns:us-east-1:123456789012:bounces"; "Notification"])
  ∧ canonical_string (<["Message" := "Hellp"]> notification)
    ≠ Returned (field_lines notification_order
                  ["Hello"; "22b80b92-fdea-4c2c-8f9d-bdfb0c7bf324";
                   "2023-05-01T12:00:00.000Z";
                   "arn:aws:sns:us-east-1:123456789012:bounces"; "Notification"]).
Proof.
  apply (canonical_string_deterministic_sensitive notification
           (<["Signature" := "AAAA"]> notification)
           (<["Message" := "Hellp"]> notification) "Notification" "Message").
  - reflexivity.
  - reflexivity.
  - repeat constructor.
  - vm_compute. set_solver.
  - vm_compute. discriminate.
  - repeat constructor; intros; vm_compute; try reflexivity; congruence.
  - vm_compute. reflexivity.
Defined.

Lemma grab_keyfile_rejects_certificate_file_witness :
  (length (pem_parse lib (smart_bytes (certificate ++ certificate)%list)) ≠ 1 →
     ∃ w', grab_keyfile settings lib two_certs_url fresh
           = (Raised (ValueError "Invalid Certificate File"), w')
           ∧ caches w' = caches fresh)
  ∧ (∀ r w', grab_keyfile settings lib two_certs_url fresh = (r, w') →
       caches w' ≠ caches fresh →
       length (pem_parse lib (smart_bytes (certificate ++ certificate)%list)) = 1
       ∧ r = Returned (certificate ++ certificate)%list
       ∧ caches w' = <[key_cache_alias settings :=
                        <[two_certs_url := (certificate ++ certificate)%list]> ∅]>
                       (caches fresh)).
Proof.
  apply (grab_keyfile_rejects_certificate_file settings lib two_certs_url fresh ∅).
  - reflexivity.
  - reflexivity.
  - reflexivity.
Defined.

Lemma grab_keyfile_served_from_cache_witness :
  cached settings after_fetch cert_url = Some key_file
  ∧ grab_keyfile settings lib cert_url after_fetch = (Returned key_file, after_fetch).
Proof.
  apply (grab_keyfile_served_from_cache settings lib cert_url fresh after_fetch after_fetch).
  - reflexivity.
  - vm_compute. reflexivity.
  - vm_compute. reflexivity.
Defined.

Lemma verify_notification_propagates_witness :
  verify_notification settings lib (<["Signature" := "abc"]> notification) fresh
  = (Raised (BinasciiError "Incorrect padding"), after_fetch).
Proof.
  apply (verify_notification_propagates settings lib
           (<["Signature" := "abc"]> notification) fresh after_fetch cert_url key_file).
  - reflexivity.
  - vm_compute. reflexivity.
  - right. exists key_file, "abc". repeat split.
    left. vm_compute. reflexivity.
Defined.

Definition after_dsa_fetch : world :=
  World {[ "default" := {[ dsa_url := dsa_key_file ]} ]} [Request dsa_url].

Lemma verify_notification_true_iff_dsa_witness :
  verify_notification settings (with_cryptography crypto lib) dsa_notification fresh
  = (Returned true, after_dsa_fetch).
Proof.
  apply (verify_notification_true_iff_dsa settings crypto lib dsa_notification fresh
           after_dsa_fetch).
  exists dsa_url, dsa_key_file, dsa_key_file, "ig==", [Byte.x8a].
  eexists. repeat split; vm_compute; reflexivity.
Defined.

Lemma grab_keyfile_accepts_other_blocks_witness :
  grab_keyfile settings lib cert_url fresh
  = (Returned key_file,
     World (<[key_cache_alias settings := <[cert_url := key_file]> ∅]> (caches fresh))
           (Request cert_url :: history fresh)).
Proof.
  apply (grab_keyfile_accepts_other_blocks settings lib cert_url fresh ∅ key_file key_file).
  - reflexivity.
  - reflexivity.
  - reflexivity.
  - vm_compute. reflexivity.
  - vm_compute. reflexivity.
Defined.

Lemma verify_notification_other_types_witness :
  hash_format_of "UnsubscribeConfirmation" = SUBSCRIPTION_HASH_FORMAT
  ∧ template_fields (hash_format_of "UnsubscribeConfirmation") = subscription_order
  ∧ canonical_string unsubscribe = format SUBSCRIPTION_HASH_FORMAT unsubscribe
  ∧ verify_notification settings lib unsubscribe fresh
    = (Returned (accepts lib key_file [Byte.x2d]
                   (format SUBSCRIPTION_HASH_FORMAT unsubscribe)), after_fetch).
Proof.
  apply (verify_notification_other_types settings lib unsubscribe fresh after_fetch
           cert_url "LQ==" "UnsubscribeConfirmation" key_file [Byte.x2d] key_file).
  - reflexivity.
  - discriminate.
  - reflexivity.
  - vm_compute. reflexivity.
  - vm_compute. reflexivity.
  - reflexivity.
  - vm_compute. reflexivity.
Defined.


Lemma approve_subscription_http_error_witness :
  ∃ w',
    approve_subscription settings lib unsubscribe fresh
    = (Raised (AttributeError "module 'urllib' has no attribute 'HTTPError'"), w')
    ∧ requests (history w') = confirm_url :: requests (history fresh)
    ∧ signals (history w') = signals (history fresh).
Proof.
  apply (approve_subscription_http_error settings lib unsubscribe fresh confirm_url
           "sns.us-east-1.amazonaws.com" error_body).
  - reflexivity.
  - reflexivity.
  - vm_compute. reflexivity.
  - reflexivity.
Defined.

End Witnesses.

(** * Further properties of the module *)

(** ** The certificate cache *)

Section Cache.

Variable settings : settings_module.
Variable lib : libraries.

Local Abbreviation alias := (key_cache_alias settings).

(** The entry of any cache of the registry. *)
Definition entry (w : world) (cache key : string) : option bytes :=
  caches w !! cache ≫= λ store, store !! key.

(** [grab_keyfile], branch by branch. *)
Lemma grab_keyfile_unfold (cert_url : string) (w : world) :
  grab_keyfile settings lib cert_url w =
    match caches w !! alias with
    | None => (Raised (InvalidCacheBackendError alias), w)
    | Some store =>
        if truthy (store !! cert_url) then (Returned (default [] (store !! cert_url)), w)
        else
          match urlopen lib (history w) cert_url with
          | Raised e => (Raised e, World (caches w) (Request cert_url :: history w))
          | Returned body =>
              if Nat.eqb (length (pem_parse lib (smart_bytes body))) 1
              then (Returned body,
                    World (alter (insert cert_url body) alias (caches w))
                          (Request cert_url :: history w))
              else (Raised (ValueError "Invalid Certificate File"),
                    World (caches w)
                          (Log ERROR "Invalid Certificate File: URL %s" (ArgStr cert_url)
                           :: Request cert_url :: history w))
          end
    end.
Proof.
  unfold grab_keyfile, bind, caches_getitem, cache_get, urlopen_read. fold alias.
  destruct (caches w !! alias) as [store|] eqn:Hstore; [|reflexivity].
  simpl. rewrite Hstore. simpl.
  destruct (truthy (store !! cert_url)); [reflexivity|]. simpl.
  destruct (urlopen lib (history w) cert_url) as [body|e]; [|reflexivity].
  destruct (Nat.eqb _ 1); reflexivity.
Qed.

(** X1. A cache alias that is not configured makes [grab_keyfile] raise
    before anything is requested. *)
Theorem grab_keyfile_unconfigured_cache (cert_url : string) (w : world) :
  caches w !! alias = None →
  grab_keyfile settings lib cert_url w = (Raised (InvalidCacheBackendError alias), w).
Proof. intros H. rewrite grab_keyfile_unfold. now rewrite H. Qed.

(** X2. On a miss, an exception of the download is the exception of
    [grab_keyfile]; the request has been made and no cache is changed. *)
Theorem grab_keyfile_download_failure
    (cert_url : string) (w : world) (store : gmap string bytes) (e : exn) :
  caches w !! alias = Some store →
  truthy (store !! cert_url) = false →
  urlopen lib (history w) cert_url = Raised e →
  grab_keyfile settings lib cert_url w
  = (Raised e, World (caches w) (Request cert_url :: history w)).
Proof.
  intros Hstore Hmiss Hfail. rewrite grab_keyfile_unfold. now rewrite Hstore, Hmiss, Hfail.
Qed.

(** X3. An entry that holds empty bytes counts as absent: the certificate
    is downloaded, and a file with one block replaces the entry. *)
Theorem grab_keyfile_empty_entry
    (cert_url : string) (w : world) (body : bytes) :
  entry w alias cert_url = Some [] →
  urlopen lib (history w) cert_url = Returned body →
  length (pem_parse lib (smart_bytes body)) = 1 →
  ∃ w', grab_keyfile settings lib cert_url w = (Returned body, w')
        ∧ entry w' alias cert_url = Some body
        ∧ requests (history w') = cert_url :: requests (history w).
Proof.
  unfold entry. intros Hentry Hbody Hone. rewrite grab_keyfile_unfold.
  destruct (caches w !! alias) as [store|] eqn:Hstore; [|discriminate].
  simpl in Hentry. rewrite Hentry, Hbody. simpl.
  apply Nat.eqb_eq in Hone. rewrite Hone.
  eexists. split; [reflexivity|]. simpl. split; [|reflexivity].
  rewrite lookup_alter_eq, Hstore. simpl. apply lookup_insert_eq.
Qed.

(** X4. [grab_keyfile] never changes or removes an entry that holds
    bytes, in any cache and under any key, however it ends. *)
Theorem grab_keyfile_keeps_entries
    (cert_url : string) (w w' : world) (r : result bytes)
    (cache key : string) (value : bytes) :
  grab_keyfile settings lib cert_url w = (r, w') →
  entry w cache key = Some value →
  value ≠ [] →
  entry w' cache key = Some value.
Proof.
  rewrite grab_keyfile_unfold. unfold entry.
  destruct (caches w !! alias) as [store|] eqn:Hstore; [|now intros [= <- <-]].
  destruct (truthy (store !! cert_url)) eqn:Hhit; [now intros [= <- <-]|].
  destruct (urlopen lib (history w) cert_url) as [body|e]; [|now intros [= <- <-]].
  destruct (Nat.eqb _ 1); intros [= <- <-]; simpl; [|trivial].
  intros Hentry Hne.
  destruct (decide (alias = cache)) as [<-|Hcache].
  - rewrite lookup_alter_eq, Hstore. rewrite Hstore in Hentry. simpl in *.
    destruct (decide (cert_url = key)) as [<-|Hkey].
    + rewrite Hentry in Hhit. destruct value; [contradiction|discriminate].
    + now rewrite lookup_insert_ne.
  - now rewrite lookup_alter_ne.
Qed.

(** X5. [grab_keyfile] touches one entry at most, that of the URL in the
    key cache: every other entry, and the set of configured caches, are
    as before. *)
Theorem grab_keyfile_frame
    (cert_url : string) (w w' : world) (r : result bytes) (cache key : string) :
  grab_keyfile settings lib cert_url w = (r, w') →
  (is_Some (caches w' !! cache) ↔ is_Some (caches w !! cache))
  ∧ ((cache, key) ≠ (alias, cert_url) → entry w' cache key = entry w cache key).
Proof.
  rewrite grab_keyfile_unfold. unfold entry.
  destruct (caches w !! alias) as [store|] eqn:Hstore; [|now intros [= <- <-]].
  destruct (truthy (store !! cert_url)); [now intros [= <- <-]|].
  destruct (urlopen lib (history w) cert_url) as [body|e]; [|now intros [= <- <-]].
  destruct (Nat.eqb _ 1); intros [= <- <-]; simpl; [|tauto].
  destruct (decide (alias = cache)) as [<-|Hcache].
  - rewrite lookup_alter_eq, Hstore. simpl. split.
    + split; eauto.
    + intros Hother. apply lookup_insert_ne. congruence.
  - rewrite lookup_alter_ne by exact Hcache. tauto.
Qed.

(** X6. With the cache configured, [grab_keyfile] makes no request on a
    hit and exactly one, to the URL it was given, on a miss; it sends no
    signal. *)
Theorem grab_keyfile_requests
    (cert_url : string) (w w' : world) (r : result bytes) (store : gmap string bytes) :
  caches w !! alias = Some store →
  grab_keyfile settings lib cert_url w = (r, w') →
  requests (history w')
  = ((if truthy (store !! cert_url) then [] else [cert_url]) ++ requests (history w))%list
  ∧ signals (history w') = signals (history w).
Proof.
  intros Hstore. rewrite grab_keyfile_unfold, Hstore.
  destruct (truthy (store !! cert_url)); [now intros [= <- <-]|].
  destruct (urlopen lib (history w) cert_url) as [body|e]; [|now intros [= <- <-]].
  destruct (Nat.eqb _ 1); now intros [= <- <-].
Qed.

(** X7. A failure is not remembered: after a call that raised, with the
    cache configured, the next call for the same URL downloads again. *)
Theorem grab_keyfile_failure_not_cached
    (cert_url : string) (w w1 w2 : world) (e : exn) (r : result bytes) :
  is_Some (caches w !! alias) →
  grab_keyfile settings lib cert_url w = (Raised e, w1) →
  grab_keyfile settings lib cert_url w1 = (r, w2) →
  requests (history w2) = cert_url :: cert_url :: requests (history w).
Proof.
  intros [store Hstore]. rewrite !grab_keyfile_unfold, Hstore.
  destruct (truthy (store !! cert_url)) eqn:Hmiss; [discriminate|].
  destruct (urlopen lib (history w) cert_url) as [body|e1].
  - destruct (Nat.eqb _ 1); [discriminate|]. intros [= <- <-]. simpl.
    rewrite Hstore, Hmiss.
    destruct (urlopen lib _ cert_url) as [body2|e2]; [|now intros [= <- <-]].
    destruct (Nat.eqb _ 1); now intros [= <- <-].
  - intros [= <- <-]. simpl. rewrite Hstore, Hmiss.
    destruct (urlopen lib _ cert_url) as [body2|e2]; [|now intros [= <- <-]].
    destruct (Nat.eqb _ 1); now intros [= <- <-].
Qed.

End Cache.

(** ** More on [verify_notification] *)

(** The bytes of a [Signature] text that the decoder looks at: the
    alphabet and the pad. *)
Definition b64_significant (c : Byte.byte) : bool :=
  Byte.eqb c BASE64_PAD || bool_decide (is_Some (b64_value c)).

Lemma a2b_base64_skips (data : bytes) (quad_pos : nat) (leftchar : N) (pads : nat)
    (out : bytes) :
  a2b_base64 (List.filter b64_significant data) quad_pos leftchar pads out
  = a2b_base64 data quad_pos leftchar pads out.
Proof.
  revert quad_pos leftchar pads out.
  induction data as [|c data IH]; intros quad_pos leftchar pads out; [reflexivity|].
  cbn [List.filter]. unfold b64_significant at 1.
  destruct (Byte.eqb c BASE64_PAD) eqn:Hpad.
  - cbn [orb a2b_base64]. rewrite Hpad.
    destruct (2 <=? quad_pos)%nat; [|apply IH].
    destruct (4 <=? quad_pos + S pads)%nat; [reflexivity|apply IH].
  - destruct (b64_value c) as [v|] eqn:Hvalue.
    + cbn [orb a2b_base64]. rewrite bool_decide_eq_true_2 by eauto.
      cbn [a2b_base64]. rewrite Hpad, Hvalue.
      destruct quad_pos as [|[|[|quad_pos]]]; apply IH.
    + cbn [orb]. rewrite bool_decide_eq_false_2 by (intros [? [=]]).
      cbn [a2b_base64]. rewrite Hpad, Hvalue. apply IH.
Qed.

Lemma decodebytes_skips (data : bytes) :
  decodebytes (List.filter b64_significant data) = decodebytes data.
Proof. apply a2b_base64_skips. Qed.

(** A template field that is absent makes [format] raise. *)
Lemma substitute_missing_field (segs : list segment) (data : payload) (name : string) :
  name ∈ fields_of segs → data !! name = None →
  ∃ e, substitute segs data = Raised e.
Proof.
  induction segs as [|[c|f] segs IH]; intros Hin Hnone.
  - inversion Hin.
  - destruct (IH Hin Hnone) as [e He]. exists e. simpl. now rewrite He.
  - change (fields_of (Field f :: segs)) with (f :: fields_of segs) in Hin.
    simpl. unfold getitem.
    destruct (data !! f) as [v|] eqn:Hf; [|eauto].
    apply elem_of_cons in Hin as [->|Hin]; [congruence|].
    destruct (IH Hin Hnone) as [e He]. exists e. simpl. now rewrite He.
Qed.

Section Verification.

Variable settings : settings_module.
Variable lib : libraries.

(** X8. A payload without [SigningCertURL] raises [KeyError] and nothing
    is done: no request, no change of the caches. *)
Theorem verify_notification_without_cert_url (data : payload) (w : world) :
  data !! "SigningCertURL" = None →
  verify_notification settings lib data w = (Raised (KeyError "SigningCertURL"), w).
Proof.
  intros H. unfold verify_notification, bind, lift, getitem. now rewrite H.
Qed.

(** X9. Whatever [grab_keyfile] raises, a rejected certificate file
    included, [verify_notification] raises too: it does not answer
    [False]. *)
Theorem verify_notification_certificate_failure
    (data : payload) (w w1 : world) (cert_url : string) (e : exn) :
  data !! "SigningCertURL" = Some cert_url →
  grab_keyfile settings lib cert_url w = (Raised e, w1) →
  verify_notification settings lib data w = (Raised e, w1).
Proof.
  intros Hurl Hgrab. unfold verify_notification, bind, lift, getitem.
  now rewrite Hurl, Hgrab.
Qed.

(** X10. A payload without [Signature] raises [KeyError], but only after
    the certificate has been obtained and the key loaded: the world is
    the one [grab_keyfile] left. *)
Theorem verify_notification_without_signature
    (data : payload) (w w1 : world) (cert_url : string) (pemfile : bytes)
    (cert : public_key lib) :
  data !! "SigningCertURL" = Some cert_url →
  grab_keyfile settings lib cert_url w = (Returned pemfile, w1) →
  load_pem_public_key lib (smart_bytes pemfile) = Returned cert →
  data !! "Signature" = None →
  verify_notification settings lib data w = (Raised (KeyError "Signature"), w1).
Proof.
  intros Hurl Hgrab Hload Hsig. unfold verify_notification, bind, lift, getitem.
  now rewrite Hurl, Hgrab, Hload, Hsig.
Qed.

(** X11. With the key loaded, the signature decoded and [Type] present, a
    payload that lacks a field of its template is answered [False]. *)
Theorem verify_notification_missing_field
    (data : payload) (w w1 : world) (cert_url sig_text type name : string)
    (pemfile signature : bytes) (cert : public_key lib) :
  data !! "SigningCertURL" = Some cert_url →
  grab_keyfile settings lib cert_url w = (Returned pemfile, w1) →
  load_pem_public_key lib (smart_bytes pemfile) = Returned cert →
  data !! "Signature" = Some sig_text →
  decodebytes (force_bytes sig_text) = Returned signature →
  data !! "Type" = Some type →
  name ∈ template_order type →
  data !! name = None →
  verify_notification settings lib data w = (Returned false, w1).
Proof.
  intros Hurl Hgrab Hload Hsig Hdecode Htype Hin Hnone.
  rewrite (verify_notification_verdict settings lib data w w1 cert_url sig_text type
             pemfile signature cert) by assumption.
  destruct (parse_hash_format type) as (segs & Hparse & Hfields).
  unfold accepts, format. rewrite Hparse. rewrite <- Hfields in Hin.
  destruct (substitute_missing_field segs data name Hin Hnone) as [e ->]. reflexivity.
Qed.

(** X12. With the key loaded and the signature decoded, a signature that
    the key rejects is answered [False], whatever the key raised. *)
Theorem verify_notification_rejected_signature
    (data : payload) (w w1 : world) (cert_url sig_text text : string)
    (pemfile signature : bytes) (cert : public_key lib) (e : exn) :
  data !! "SigningCertURL" = Some cert_url →
  grab_keyfile settings lib cert_url w = (Returned pemfile, w1) →
  load_pem_public_key lib (smart_bytes pemfile) = Returned cert →
  data !! "Signature" = Some sig_text →
  decodebytes (force_bytes sig_text) = Returned signature →
  canonical_string data = Returned text →
  verify lib cert signature (force_bytes text) SHA256 = Raised e →
  verify_notification settings lib data w = (Returned false, w1).
Proof.
  intros Hurl Hgrab Hload Hsig Hdecode Hcanon Hreject.
  unfold canonical_string, getitem in Hcanon.
  destruct (data !! "Type") as [type|] eqn:Htype; [|discriminate]. simpl in Hcanon.
  rewrite (verify_notification_verdict settings lib data w w1 cert_url sig_text type
             pemfile signature cert) by assumption.
  unfold accepts. now rewrite Hcanon, Hreject.
Qed.

(** X13. However it ends, [verify_notification] sends no signal and makes
    at most one request, which goes to the [SigningCertURL] of the
    payload, whatever host that names. *)
Theorem verify_notification_effects
    (data : payload) (w w' : world) (r : result bool) :
  verify_notification settings lib data w = (r, w') →
  signals (history w') = signals (history w)
  ∧ (requests (history w') = requests (history w)
     ∨ ∃ cert_url, data !! "SigningCertURL" = Some cert_url
                   ∧ requests (history w') = cert_url :: requests (history w)).
Proof.
  unfold verify_notification, bind, lift, ret, try_except, getitem.
  destruct (data !! "SigningCertURL") as [cert_url|] eqn:Hurl;
    [|intros [= <- <-]; auto].
  destruct (grab_keyfile settings lib cert_url w) as [rk w1] eqn:Hgrab.
  assert (Hw1 : signals (history w1) = signals (history w)
                ∧ (requests (history w1) = requests (history w)
                   ∨ requests (history w1) = cert_url :: requests (history w))).
  { rewrite grab_keyfile_unfold in Hgrab.
    destruct (caches w !! key_cache_alias settings) as [store|];
      [|injection Hgrab as <- <-; auto].
    destruct (truthy (store !! cert_url)); [injection Hgrab as <- <-; auto|].
    destruct (urlopen lib (history w) cert_url) as [body|e];
      [|injection Hgrab as <- <-; auto].
    destruct (Nat.eqb _ 1); injection Hgrab as <- <-; auto. }
  assert (Hgoal : signals (history w1) = signals (history w)
                  ∧ (requests (history w1) = requests (history w)
                     ∨ ∃ u, Some cert_url = Some u
                            ∧ requests (history w1) = u :: requests (history w))).
  { destruct Hw1 as [Hsig [Hreq|Hreq]]; eauto. }
  clear Hw1 Hgrab.
  destruct rk as [pemfile|e]; [|now intros [= <- <-]].
  destruct (load_pem_public_key lib (smart_bytes pemfile)) as [cert|e];
    [|now intros [= <- <-]].
  destruct (data !! "Signature") as [sig_text|]; [|now intros [= <- <-]].
  destruct (decodebytes (force_bytes sig_text)) as [signature|e];
    [|now intros [= <- <-]].
  destruct (data !! "Type") as [type|]; [|now intros [= <- <-]].
  destruct (format (hash_format_of type) data) as [text|e]; [|now intros [= <- <-]].
  destruct (verify lib cert signature (force_bytes text) SHA256);
    now intros [= <- <-].
Qed.

(** X14. A field that is outside the template of the payload's [Type],
    and is neither [Signature] nor [SigningCertURL], is not covered by
    the check: setting it to anything changes neither the answer nor the
    effects. *)
Theorem verify_notification_unsigned_field
    (data : payload) (w : world) (key value : string) :
  key ≠ "SigningCertURL" → key ≠ "Signature" → key ≠ "Type" →
  (∀ type, data !! "Type" = Some type → key ∉ template_order type) →
  verify_notification settings lib (<[key := value]> data) w
  = verify_notification settings lib data w.
Proof.
  intros Hurl Hsig Htype Hfree.
  unfold verify_notification, bind, lift, ret, try_except, getitem.
  rewrite !lookup_insert_ne by congruence.
  destruct (data !! "SigningCertURL") as [cert_url|]; [|reflexivity].
  destruct (grab_keyfile settings lib cert_url w) as [[pemfile|e] w1]; [|reflexivity].
  destruct (load_pem_public_key lib (smart_bytes pemfile)) as [cert|e]; [|reflexivity].
  destruct (data !! "Signature") as [sig_text|]; [|reflexivity].
  destruct (decodebytes (force_bytes sig_text)) as [signature|e]; [|reflexivity].
  destruct (data !! "Type") as [type|] eqn:Hty; [|reflexivity].
  assert (Hformat : format (hash_format_of type) (<[key := value]> data)
                    = format (hash_format_of type) data).
  { destruct (parse_hash_format type) as (segs & Hparse & Hfields).
    unfold format. rewrite Hparse. apply substitute_agree. rewrite Hfields.
    apply Forall_forall. intros name Hname. apply lookup_insert_ne.
    intros ->. now apply (Hfree type). }
  now rewrite Hformat.
Qed.

(** X15. Of a [Signature] text made of code points below 256, which
    [force_bytes] always encodes, only the characters of the base64
    alphabet and the pad count: two such texts that agree on those are
    answered alike. *)
Theorem verify_notification_signature_noise
    (data : payload) (w : world) (sig1 sig2 : string) :
  data !! "Signature" = Some sig1 →
  List.filter b64_significant (force_bytes sig2)
  = List.filter b64_significant (force_bytes sig1) →
  verify_notification settings lib (<["Signature" := sig2]> data) w
  = verify_notification settings lib data w.
Proof.
  intros Hsig Hsame.
  assert (Hdecode : decodebytes (force_bytes sig2) = decodebytes (force_bytes sig1)).
  { rewrite <- (decodebytes_skips (force_bytes sig2)), Hsame. apply decodebytes_skips. }
  unfold verify_notification, bind, lift, ret, try_except, getitem.
  rewrite lookup_insert_eq, Hsig, Hdecode.
  rewrite !lookup_insert_ne by discriminate.
  destruct (data !! "SigningCertURL") as [cert_url|]; [|reflexivity].
  destruct (grab_keyfile settings lib cert_url w) as [[pemfile|e] w1]; [|reflexivity].
  destruct (load_pem_public_key lib (smart_bytes pemfile)) as [cert|e]; [|reflexivity].
  destruct (decodebytes (force_bytes sig1)) as [signature|e]; [|reflexivity].
  destruct (data !! "Type") as [type|]; [|reflexivity].
  now rewrite format_ignores_signature.
Qed.

End Verification.

(** ** More on [approve_subscription] *)

Section Approval.

Variable settings : settings_module.
Variable lib : libraries.

Local Abbreviation pattern := (subscribe_domain_pattern settings).

(** [approve_subscription], branch by branch. *)
Lemma approve_subscription_unfold (data : payload) (w : world) :
  approve_subscription settings lib data w =
    match data !! "SubscribeURL" with
    | None => (Raised (KeyError "SubscribeURL"), w)
    | Some url =>
        match urlparse_netloc lib url with
        | Raised e => (Raised e, w)
        | Returned domain =>
            if re_search pattern domain then
              match urlopen lib (history w) url with
              | Raised _ =>
                  (Raised (AttributeError "module 'urllib' has no attribute 'HTTPError'"),
                   World (caches w) (Request url :: history w))
              | Returned body =>
                  let w' :=
                    World (caches w)
                      (Signal "bouncy_approve_subscription" body data
                       :: Log INFO "Subscription Request Sent %s" (ArgStr url)
                       :: Request url :: history w) in
                  match force_str lib body with
                  | Returned text => (Returned (HttpResponse text), w')
                  | Raised e => (Raised e, w')
                  end
              end
            else
              (Returned (HttpResponseBadRequest "Improper Subscription Domain"),
               World (caches w)
                 (Log ERROR "Invalid Subscription Domain %s" (ArgStr url) :: history w))
        end
    end.
Proof.
  unfold approve_subscription, bind, lift, ret, raise, try_except, emit, urlopen_read,
    logger_error, logger_info, logger_warning, getitem.
  fold (subscribe_domain_pattern settings).
  destruct (data !! "SubscribeURL") as [url|]; [|reflexivity].
  destruct (urlparse_netloc lib url) as [domain|e]; [|reflexivity].
  destruct (re_search pattern domain); [|reflexivity]. simpl.
  destruct (urlopen lib (history w) url) as [body|e]; [|reflexivity]. simpl.
  destruct (force_str lib body); reflexivity.
Qed.

(** X16. A payload without [SubscribeURL] raises [KeyError]; nothing is
    requested, logged or signalled. *)
Theorem approve_subscription_without_url (data : payload) (w : world) :
  data !! "SubscribeURL" = None →
  approve_subscription settings lib data w = (Raised (KeyError "SubscribeURL"), w).
Proof. intros H. rewrite approve_subscription_unfold. now rewrite H. Qed.

(** X17. Whatever the confirmation GET raises, a network failure as much
    as an HTTP error, [approve_subscription] raises [AttributeError] in
    its place: the [except] clause fails before it can compare classes.
    No signal is sent. *)
Theorem approve_subscription_masks_errors
    (data : payload) (w : world) (url domain : string) (e : exn) :
  data !! "SubscribeURL" = Some url →
  urlparse_netloc lib url = Returned domain →
  re_search pattern domain = true →
  urlopen lib (history w) url = Raised e →
  approve_subscription settings lib data w
  = (Raised (AttributeError "module 'urllib' has no attribute 'HTTPError'"),
     World (caches w) (Request url :: history w)).
Proof.
  intros Hurl Hdomain Hmatch Hfail. rewrite approve_subscription_unfold.
  now rewrite Hurl, Hdomain, Hmatch, Hfail.
Qed.

(** X18. The signal is sent before the body is decoded: a body that
    [force_str] cannot decode makes [approve_subscription] raise, after
    the GET was made and the listeners were told. *)
Theorem approve_subscription_undecodable_body
    (data : payload) (w : world) (url domain : string) (body : bytes) (e : exn) :
  data !! "SubscribeURL" = Some url →
  urlparse_netloc lib url = Returned domain →
  re_search pattern domain = true →
  urlopen lib (history w) url = Returned body →
  force_str lib body = Raised e →
  ∃ w', approve_subscription settings lib data w = (Raised e, w')
        ∧ requests (history w') = url :: requests (history w)
        ∧ signals (history w') = (body, data) :: signals (history w).
Proof.
  intros Hurl Hdomain Hmatch Hbody Hdecode. rewrite approve_subscription_unfold.
  rewrite Hurl, Hdomain, Hmatch, Hbody. simpl. rewrite Hdecode.
  eexists. repeat split; reflexivity.
Qed.

(** X19. However it ends, [approve_subscription] leaves the caches alone,
    makes at most one request, to the [SubscribeURL] of the payload, and
    sends at most one signal, which carries the body of that request and
    the payload as it was given. *)
Theorem approve_subscription_effects
    (data : payload) (w w' : world) (r : result http_response) :
  approve_subscription settings lib data w = (r, w') →
  caches w' = caches w
  ∧ (requests (history w') = requests (history w)
     ∧ signals (history w') = signals (history w)
     ∨ ∃ url, data !! "SubscribeURL" = Some url
              ∧ requests (history w') = url :: requests (history w)
              ∧ (signals (history w') = signals (history w)
                 ∨ ∃ body, urlopen lib (history w) url = Returned body
                           ∧ signals (history w') = (body, data) :: signals (history w))).
Proof.
  rewrite approve_subscription_unfold.
  destruct (data !! "SubscribeURL") as [url|]; [|intros [= <- <-]; auto].
  destruct (urlparse_netloc lib url) as [domain|e]; [|intros [= <- <-]; auto].
  destruct (re_search pattern domain); [|intros [= <- <-]; auto].
  destruct (urlopen lib (history w) url) as [body|e] eqn:Hbody.
  - simpl. destruct (force_str lib body); intros [= <- <-];
      (split; [reflexivity|]); right; exists url; eauto 10.
  - intros [= <- <-]. split; [reflexivity|]. right. exists url. auto.
Qed.

(** X20. A response with status 200 is returned only when the host
    matched the pattern, the GET to [SubscribeURL] returned a body, that
    body was signalled with the payload, and the response holds the
    decoded body. *)
Theorem approve_subscription_ok_only_if
    (data : payload) (w w' : world) (response : http_response) :
  approve_subscription settings lib data w = (Returned response, w') →
  status_code response = 200 →
  ∃ url domain body text,
    data !! "SubscribeURL" = Some url
    ∧ urlparse_netloc lib url = Returned domain
    ∧ re_search pattern domain = true
    ∧ urlopen lib (history w) url = Returned body
    ∧ force_str lib body = Returned text
    ∧ response = HttpResponse text
    ∧ requests (history w') = url :: requests (history w)
    ∧ signals (history w') = (body, data) :: signals (history w).
Proof.
  rewrite approve_subscription_unfold.
  destruct (data !! "SubscribeURL") as [url|]; [|discriminate].
  destruct (urlparse_netloc lib url) as [domain|e] eqn:Hdomain; [|discriminate].
  destruct (re_search pattern domain) eqn:Hmatch.
  - destruct (urlopen lib (history w) url) as [body|e] eqn:Hbody; [|discriminate].
    simpl. destruct (force_str lib body) as [text|e] eqn:Htext; [|discriminate].
    intros [= <- <-] _. exists url, domain, body, text. auto 10.
  - intros [= <- <-]. discriminate.
Qed.

End Approval.

(** ** When the canonical string is unambiguous *)

(** A value without a line break. *)
Definition single_line (s : string) : bool :=
  forallb (λ c, negb (Ascii.eqb c newline)) (list_ascii_of_string s).

(** Every replacement field of the template is followed by a newline. *)
Fixpoint delimited (segs : list segment) : bool :=
  match segs with
  | [] => true
  | Lit _ :: segs' => delimited segs'
  | Field _ :: segs' =>
      match segs' with
      | Lit c :: _ => Ascii.eqb c newline && delimited segs'
      | _ => false
      end
  end.

Lemma single_line_split (a a' r r' : string) :
  single_line a = true → single_line a' = true →
  a ++ String newline r = a' ++ String newline r' →
  a = a' ∧ r = r'.
Proof.
  revert a'. induction a as [|c a IH]; intros [|c' a'] Ha Ha' H;
    rewrite ?string_app_nil, ?string_app_cons in H.
  - injection H as ->. auto.
  - injection H as <- _. simpl in Ha'. rewrite ?Ascii.eqb_refl in Ha'. discriminate.
  - injection H as -> _. simpl in Ha. rewrite ?Ascii.eqb_refl in Ha. discriminate.
  - injection H as <- H. simpl in Ha, Ha'.
    apply andb_prop in Ha as [_ Ha]. apply andb_prop in Ha' as [_ Ha'].
    destruct (IH a' Ha Ha' H) as [-> ->]. auto.
Qed.

Lemma substitute_injective (segs : list segment) (d1 d2 : payload) (text : string) :
  delimited segs = true →
  Forall (λ name, ∀ v, d1 !! name = Some v ∨ d2 !! name = Some v → single_line v = true)
         (fields_of segs) →
  substitute segs d1 = Returned text →
  substitute segs d2 = Returned text →
  Forall (λ name, d1 !! name = d2 !! name) (fields_of segs).
Proof.
  revert text. induction segs as [|[c|name] segs IH]; intros text Hdelim Hlines H1 H2.
  - constructor.
  - apply substitute_returned_inv_lit in H1 as (r1 & H1 & ->).
    apply substitute_returned_inv_lit in H2 as (r2 & H2 & [= <-]).
    now apply (IH r1).
  - change (fields_of (Field name :: segs)) with (name :: fields_of segs) in *.
    apply Forall_cons in Hlines as [Hline Hlines].
    apply substitute_returned_inv_field in H1 as (v1 & r1 & Hv1 & H1 & ->).
    apply substitute_returned_inv_field in H2 as (v2 & r2 & Hv2 & H2 & Heq).
    simpl in Hdelim. destruct segs as [|[c|f] segs']; try discriminate.
    apply andb_prop in Hdelim as [Hc Hdelim]. apply Ascii.eqb_eq in Hc as ->.
    pose proof H1 as H1'. pose proof H2 as H2'.
    apply substitute_returned_inv_lit in H1' as (t1 & _ & ->).
    apply substitute_returned_inv_lit in H2' as (t2 & _ & ->).
    apply single_line_split in Heq as [-> [= ->]]; eauto.
    constructor; [congruence|]. now apply (IH (String newline t2)).
Qed.

(** X21. When no templated value of two payloads of one [Type] holds a
    line break, one canonical string means the same value in every
    templated field. *)
Theorem canonical_string_injective (d1 d2 : payload) (type text : string) :
  d1 !! "Type" = Some type →
  d2 !! "Type" = Some type →
  Forall (λ name, ∀ v, d1 !! name = Some v ∨ d2 !! name = Some v → single_line v = true)
         (template_order type) →
  canonical_string d1 = Returned text →
  canonical_string d2 = Returned text →
  Forall (λ name, d1 !! name = d2 !! name) (template_order type).
Proof.
  intros Hty1 Hty2 Hlines. unfold canonical_string, getitem. rewrite Hty1, Hty2. simpl.
  unfold format.
  assert (∃ segs, parse_template (hash_format_of type) None = Some segs
                  ∧ fields_of segs = template_order type ∧ delimited segs = true)
    as (segs & Hparse & Hfields & Hdelim).
  { unfold hash_format_of, template_order.
    destruct (String.eqb type "Notification"); eexists; repeat split; reflexivity. }
  rewrite Hparse. rewrite <- Hfields in *. now apply substitute_injective.
Qed.

(** ** The hosts that the default pattern lets through *)

Definition is_empty (s : string) : bool :=
  match s with
  | EmptyString => true
  | String _ _ => false
  end.

(** What it means for a pattern to match: [Matches r at_start u v] says
    that [r], standing at a position that is the start of the subject or
    not, matches the text [u] with [v] left of the subject after it. *)
Inductive Matches : regex → bool → string → string → Prop :=
  | M_Eps b v : Matches Eps b "" v
  | M_Chr c b v : Matches (Chr c) b (String c "") v
  | M_AnyChr c b v : c ≠ newline → Matches AnyChr b (String c "") v
  | M_Class negated ranges c b v :
      class_matches negated ranges c = true →
      Matches (Class negated ranges) b (String c "") v
  | M_Bol v : Matches Bol true "" v
  | M_Eol b v : at_end v = true → Matches Eol b "" v
  | M_Cat r1 r2 b u1 u2 v :
      Matches r1 b u1 (u2 ++ v) →
      Matches r2 (b && is_empty u1) u2 v →
      Matches (Cat r1 r2) b (u1 ++ u2) v
  | M_Alt_l r1 r2 b u v : Matches r1 b u v → Matches (Alt r1 r2) b u v
  | M_Alt_r r1 r2 b u v : Matches r2 b u v → Matches (Alt r1 r2) b u v
  | M_Star_nil r b v : Matches (Star r) b "" v
  | M_Star_cons r b u1 u2 v :
      u1 ≠ "" →
      Matches r b u1 (u2 ++ v) →
      Matches (Star r) false u2 v →
      Matches (Star r) b (u1 ++ u2) v.

Lemma string_app_eq_nil (a b : string) : a ++ b = "" → a = "" ∧ b = "".
Proof. destruct a; [auto|]. rewrite string_app_cons. discriminate. Qed.


Lemma nullable_Matches (r : regex) (b : bool) (v : string) :
  nullable b v r = true → Matches r b "" v.
Proof.
  induction r; simpl; intros H; try discriminate.
  - constructor.
  - subst b. constructor.
  - now constructor.
  - apply andb_prop in H as [H1 H2].
    change "" with ("" ++ "") at 1. constructor.
    + rewrite string_app_nil. auto.
    + simpl. rewrite andb_true_r. auto.
  - apply orb_prop in H as [H|H]; [apply M_Alt_l | apply M_Alt_r]; auto.
  - constructor.
Qed.

Lemma Matches_nullable (r : regex) (b : bool) (u v : string) :
  Matches r b u v → u = "" → nullable b v r = true.
Proof.
  induction 1 as [ | | | | | | r1 r2 b u1 u2 v _ IH1 _ IH2
                 | r1 r2 b u v _ IH | r1 r2 b u v _ IH | | r b u1 u2 v Hne _ _ _ _];
    intros Hempty; simpl; try discriminate; try reflexivity; try assumption.
  - apply string_app_eq_nil in Hempty as [-> ->].
    rewrite string_app_nil in IH1. simpl in IH2. rewrite andb_true_r in IH2.
    now rewrite IH1, IH2.
  - now rewrite IH.
  - rewrite IH by assumption. apply orb_true_r.
Qed.

Lemma nullable_iff (r : regex) (b : bool) (v : string) :
  nullable b v r = true ↔ Matches r b "" v.
Proof.
  split; [apply nullable_Matches|]. intros H. now apply (Matches_nullable r b "" v).
Qed.

(** Consuming the first character. *)
Lemma Matches_derive (r : regex) (b : bool) (u' v : string) :
  Matches r b u' v →
  ∀ ch tl, u' = String ch tl → Matches (derive b (u' ++ v) ch r) false tl v.
Proof.
  induction 1 as [ | c0 b v | c0 b v Hc | negated ranges c0 b v Hc | | 
                 | r1 r2 b u1 u2 v H1 IH1 H2 IH2
                 | r1 r2 b u v _ IH | r1 r2 b u v _ IH | 
                 | r b u1 u2 v Hne H1 IH1 H2 _];
    intros ch tl Hu; try discriminate.
  - injection Hu as <- <-. simpl. rewrite Ascii.eqb_refl. constructor.
  - injection Hu as <- <-. simpl.
    destruct (Ascii.eqb c0 newline) eqn:E; [apply Ascii.eqb_eq in E; contradiction|].
    constructor.
  - injection Hu as <- <-. simpl. rewrite Hc. constructor.
  - cbn [derive]. rewrite string_app_assoc.
    destruct u1 as [|c1 u1].
    + rewrite string_app_nil in *. simpl in H2, IH2. rewrite andb_true_r in H2, IH2.
      apply (Matches_nullable r1 b "" (u2 ++ v)) in H1 as H1'; [|reflexivity].
      rewrite H1'. apply M_Alt_r. now apply IH2.
    + rewrite string_app_cons in Hu. injection Hu as <- <-.
      assert (Hleft : Matches (Cat (derive b (String c1 u1 ++ u2 ++ v) c1 r1) r2) false
                        (u1 ++ u2) v).
      { constructor; [now apply IH1|]. simpl in H2. rewrite andb_false_r in H2. exact H2. }
      destruct (nullable b (String c1 u1 ++ u2 ++ v) r1); [apply M_Alt_l|]; exact Hleft.
  - simpl. apply M_Alt_l. now apply IH.
  - simpl. apply M_Alt_r. now apply IH.
  - destruct u1 as [|c1 u1]; [contradiction|].
    rewrite string_app_cons in Hu. injection Hu as <- <-.
    cbn [derive]. rewrite string_app_assoc. constructor; [now apply IH1|exact H2].
Qed.

Lemma derive_Matches (r : regex) (b : bool) (c : ascii) (u v : string) :
  Matches (derive b (String c (u ++ v)) c r) false u v → Matches r b (String c u) v.
Proof.
  revert b u v. induction r as [ | | a | | negated ranges | | | r1 IH1 r2 IH2
                               | r1 IH1 r2 IH2 | r IH];
    intros b u v H; simpl in H; try solve [inversion H].
  - destruct (Ascii.eqb a c) eqn:E; [|inversion H].
    apply Ascii.eqb_eq in E as ->. inversion H; subst. constructor.
  - destruct (Ascii.eqb c newline) eqn:E; [inversion H|].
    inversion H; subst. constructor. intros ->. now rewrite Ascii.eqb_refl in E.
  - destruct (class_matches negated ranges c) eqn:E; [|inversion H].
    inversion H; subst. now constructor.
  - assert (Hleft : ∀ w, Matches (Cat (derive b (String c (u ++ v)) c r1) r2) false w v →
                         w = u → Matches (Cat r1 r2) b (String c u) v).
    { intros w Hw ->. inversion Hw as [ | | | | | | ? ? ? u1 u2 ? Hd1 Hd2 | | | | ]; subst.
      rewrite string_app_assoc in Hd1. apply IH1 in Hd1.
      rewrite <- string_app_cons. constructor; [exact Hd1|].
      simpl. now rewrite andb_false_r. }
    destruct (nullable b (String c (u ++ v)) r1) eqn:Hnull.
    + inversion H as [ | | | | | | | ? ? ? ? ? Hl | ? ? ? ? ? Hr | | ]; subst.
      * now apply (Hleft u).
      * apply IH2 in Hr. apply nullable_Matches in Hnull.
        rewrite <- (string_app_nil (String c u)). constructor.
        -- rewrite string_app_cons. exact Hnull.
        -- simpl. now rewrite andb_true_r.
    + now apply (Hleft u).
  - inversion H as [ | | | | | | | ? ? ? ? ? Hl | ? ? ? ? ? Hr | | ]; subst.
    + apply M_Alt_l. now apply IH1.
    + apply M_Alt_r. now apply IH2.
  - inversion H as [ | | | | | | ? ? ? u1 u2 ? Hd1 Hd2 | | | | ]; subst.
    rewrite string_app_assoc in Hd1. apply IH in Hd1.
    rewrite <- string_app_cons. constructor; [discriminate|exact Hd1|exact Hd2].
Qed.

(** [match_here] finds a match at a position exactly when there is one. *)
Lemma match_here_iff (r : regex) (b : bool) (s : string) :
  match_here b r s = true ↔ ∃ u v, s = u ++ v ∧ Matches r b u v.
Proof.
  revert r b. induction s as [|c s IH]; intros r b; simpl.
  - rewrite orb_false_r. split.
    + intros H. exists "", "". split; [reflexivity|now apply nullable_Matches].
    + intros (u & v & Hs & H). symmetry in Hs.
      apply string_app_eq_nil in Hs as [-> ->]. now apply nullable_iff.
  - split.
    + intros H. apply orb_prop in H as [H|H].
      * exists "", (String c s). split; [reflexivity|now apply nullable_Matches].
      * apply IH in H as (u & v & -> & H). exists (String c u), v.
        split; [reflexivity|]. now apply derive_Matches.
    + intros (u & v & Hs & H). destruct u as [|c' u].
      * rewrite string_app_nil in Hs. subst v.
        apply nullable_iff in H. now rewrite H.
      * rewrite string_app_cons in Hs. injection Hs as <- ->.
        apply orb_true_intro. right. apply IH. exists u, v. split; [reflexivity|].
        apply (Matches_derive r b (String c u) v H c u eq_refl).
Qed.

Lemma search_from_iff (r : regex) (b : bool) (s : string) :
  search_from b r s = true
  ↔ ∃ pre u v, s = pre ++ u ++ v ∧ Matches r (b && is_empty pre) u v.
Proof.
  revert b. induction s as [|c s IH]; intros b; cbn [search_from].
  - rewrite orb_false_r, match_here_iff. split.
    + intros (u & v & Hs & H). exists "", u, v. simpl. now rewrite andb_true_r.
    + intros (pre & u & v & Hs & H). symmetry in Hs.
      apply string_app_eq_nil in Hs as [-> Hs]. simpl in H. rewrite andb_true_r in H.
      exists u, v. split; [now rewrite Hs|exact H].
  - split.
    + intros H. apply orb_prop in H as [H|H].
      * apply match_here_iff in H as (u & v & Hs & H).
        exists "", u, v. simpl. now rewrite andb_true_r.
      * apply IH in H as (pre & u & v & -> & H).
        exists (String c pre), u, v. split; [reflexivity|].
        simpl in *. now rewrite andb_false_r.
    + intros (pre & u & v & Hs & H). apply orb_true_intro. destruct pre as [|c' pre].
      * left. apply match_here_iff. exists u, v. rewrite string_app_nil in Hs.
        simpl in H. rewrite andb_true_r in H. auto.
      * right. rewrite string_app_cons in Hs. injection Hs as <- ->.
        apply IH. exists pre, u, v. split; [reflexivity|].
        simpl in *. now rewrite andb_false_r in H.
Qed.

(** [re_search] says yes exactly when the pattern matches somewhere in
    the subject. *)
Lemma re_search_iff (r : regex) (s : string) :
  re_search r s = true ↔ ∃ pre u v, s = pre ++ u ++ v ∧ Matches r (is_empty pre) u v.
Proof. unfold re_search. now rewrite search_from_iff. Qed.

(** The pattern that begins with the characters of [s] and goes on as
    [r]. *)
Definition lit (s : string) (r : regex) : regex := foldr Cat r (chars s).

Definition all_in_class (negated : bool) (ranges : list (ascii * ascii)) (s : string) : bool :=
  forallb (class_matches negated ranges) (list_ascii_of_string s).

(** A label of a regional endpoint: lower-case letters, digits and
    hyphens, at least one. *)
Definition sns_label (s : string) : bool :=
  negb (is_empty s) && all_in_class false [("a", "z"); ("0", "9"); ("-", "-")]%char s.

Lemma default_pattern_eq :
  default_pattern
  = lit "sns" (Cat AnyChr (Cat (Plus sns_label_class) (Cat AnyChr
      (lit "amazonaws" (Cat AnyChr (lit "com" (Cat Eol Eps))))))).
Proof. reflexivity. Qed.

Lemma Matches_Cat_Chr (c : ascii) (r : regex) (b : bool) (u v : string) :
  Matches (Cat (Chr c) r) b u v ↔ ∃ u', u = String c u' ∧ Matches r false u' v.
Proof.
  split.
  - intros H. inversion H as [ | | | | | | ? ? ? u1 u2 ? H1 H2 | | | | ]; subst.
    inversion H1; subst. exists u2. split; [reflexivity|].
    simpl in H2. now rewrite andb_false_r in H2.
  - intros (u' & -> & H). change (String c u') with (String c "" ++ u').
    constructor; [constructor|]. simpl. now rewrite andb_false_r.
Qed.

Lemma Matches_Cat_AnyChr (r : regex) (b : bool) (u v : string) :
  Matches (Cat AnyChr r) b u v
  ↔ ∃ c u', u = String c u' ∧ c ≠ newline ∧ Matches r false u' v.
Proof.
  split.
  - intros H. inversion H as [ | | | | | | ? ? ? u1 u2 ? H1 H2 | | | | ]; subst.
    inversion H1; subst. eexists _, u2. split; [reflexivity|]. split; [assumption|].
    simpl in H2. now rewrite andb_false_r in H2.
  - intros (c & u' & -> & Hc & H). change (String c u') with (String c "" ++ u').
    constructor; [now constructor|]. simpl. now rewrite andb_false_r.
Qed.

Lemma Matches_Star_Class (negated : bool) (ranges : list (ascii * ascii)) (b : bool)
    (u v : string) :
  Matches (Star (Class negated ranges)) b u v ↔ all_in_class negated ranges u = true.
Proof.
  split.
  - intros H. remember (Star (Class negated ranges)) as r eqn:Hr.
    induction H as [ | | | | | | | | | | r b u1 u2 v Hne H1 _ H2 IH2]; try discriminate.
    + reflexivity.
    + injection Hr as ->. inversion H1; subst.
      unfold all_in_class in *. rewrite string_app_cons, string_app_nil. simpl.
      rewrite IH2 by reflexivity. now rewrite andb_true_r.
  - revert b. induction u as [|c u IH]; intros b H; [constructor|].
    unfold all_in_class in *. simpl in H. apply andb_prop in H as [Hc H].
    change (String c u) with (String c "" ++ u).
    constructor; [discriminate|now constructor|now apply IH].
Qed.

Lemma Matches_Cat_Plus_Class (negated : bool) (ranges : list (ascii * ascii)) (r : regex)
    (b : bool) (u v : string) :
  Matches (Cat (Plus (Class negated ranges)) r) b u v
  ↔ ∃ label u', u = label ++ u' ∧ is_empty label = false
                ∧ all_in_class negated ranges label = true ∧ Matches r false u' v.
Proof.
  unfold Plus. split.
  - intros H. inversion H as [ | | | | | | ? ? ? u1 u2 ? H1 H2 | | | | ]; subst.
    inversion H1 as [ | | | | | | ? ? ? a s ? Ha Hs | | | | ]; subst.
    inversion Ha; subst. apply Matches_Star_Class in Hs.
    exists (String c s), u2. rewrite string_app_cons, string_app_nil in *.
    repeat split.
    + unfold all_in_class in *. simpl. now rewrite Hs, andb_true_r.
    + simpl in H2. now rewrite andb_false_r in H2.
  - intros (label & u' & -> & Hne & Hclass & H).
    destruct label as [|c s]; [discriminate|].
    unfold all_in_class in Hclass. simpl in Hclass. apply andb_prop in Hclass as [Hc Hs].
    constructor.
    + change (String c s) with (String c "" ++ s). constructor; [now constructor|].
      now apply Matches_Star_Class.
    + simpl. now rewrite andb_false_r.
Qed.

Lemma Matches_Eol_Eps (b : bool) (u v : string) :
  Matches (Cat Eol Eps) b u v ↔ u = "" ∧ at_end v = true.
Proof.
  split.
  - intros H. inversion H as [ | | | | | | ? ? ? u1 u2 ? H1 H2 | | | | ]; subst.
    inversion H1; subst. inversion H2; subst. now rewrite string_app_nil in *.
  - intros [-> Hend]. change "" with ("" ++ ""). constructor; [now constructor|constructor].
Qed.

Lemma Matches_lit (s : string) (r : regex) (b : bool) (u v : string) :
  Matches (lit s r) b u v ↔ ∃ u', u = s ++ u' ∧ Matches r (b && is_empty s) u' v.
Proof.
  revert b u. induction s as [|c s IH]; intros b u.
  - unfold lit. simpl. rewrite andb_true_r. split; [eauto|]. now intros (u' & -> & H).
  - change (lit (String c s) r) with (Cat (Chr c) (lit s r)).
    rewrite Matches_Cat_Chr. simpl. rewrite andb_false_r. split.
    + intros (u1 & -> & H). apply IH in H as (u' & -> & H). exists u'. auto.
    + intros (u' & -> & H). exists (s ++ u'). split; [reflexivity|].
      apply IH. exists u'. auto.
Qed.

Lemma at_end_iff (s : string) : at_end s = true ↔ s = "" ∨ s = nl.
Proof.
  destruct s as [|c [|d s]]; simpl.
  - tauto.
  - rewrite Ascii.eqb_eq. unfold nl. split; [intros ->; auto|]. intros [[=]|[=]]. auto.
  - split; [discriminate|]. intros [[=]|[=]].
Qed.

(** What the default pattern matches at a position. *)
Lemma default_pattern_Matches (b : bool) (u v : string) :
  Matches default_pattern b u v
  ↔ ∃ c1 label c2 c3,
      u = "sns" ++ String c1 (label ++ String c2 ("amazonaws" ++ String c3 "com"))
      ∧ c1 ≠ newline ∧ c2 ≠ newline ∧ c3 ≠ newline
      ∧ sns_label label = true ∧ (v = "" ∨ v = nl).
Proof.
  rewrite default_pattern_eq, Matches_lit. unfold sns_label_class, sns_label. split.
  - intros (u1 & -> & H).
    apply Matches_Cat_AnyChr in H as (c1 & u2 & -> & Hc1 & H).
    apply Matches_Cat_Plus_Class in H as (label & u3 & -> & Hne & Hclass & H).
    apply Matches_Cat_AnyChr in H as (c2 & u4 & -> & Hc2 & H).
    apply Matches_lit in H as (u5 & -> & H).
    apply Matches_Cat_AnyChr in H as (c3 & u6 & -> & Hc3 & H).
    apply Matches_lit in H as (u7 & -> & H).
    apply Matches_Eol_Eps in H as [-> Hend]. apply at_end_iff in Hend.
    exists c1, label, c2, c3. rewrite Hne, Hclass. auto 10.
  - intros (c1 & label & c2 & c3 & -> & Hc1 & Hc2 & Hc3 & Hlabel & Hend).
    apply andb_prop in Hlabel as [Hne Hclass]. apply negb_true_iff in Hne.
    eexists. split; [reflexivity|].
    apply Matches_Cat_AnyChr. eexists _, _. split; [reflexivity|]. split; [assumption|].
    apply Matches_Cat_Plus_Class. eexists _, _. split; [reflexivity|].
    split; [assumption|]. split; [assumption|].
    apply Matches_Cat_AnyChr. eexists _, _. split; [reflexivity|]. split; [assumption|].
    apply Matches_lit. exists (String c3 "com"). split; [reflexivity|].
    apply Matches_Cat_AnyChr. eexists _, _. split; [reflexivity|]. split; [assumption|].
    apply Matches_lit. exists "". split; [reflexivity|].
    apply Matches_Eol_Eps. split; [reflexivity|]. now apply at_end_iff.
Qed.

(** X22. The hosts that pass the default allow-list are exactly those in
    which, somewhere, [sns] is followed by any character, a label, any
    character, [amazonaws], any character and [com], and that end there
    or one newline later.  Nothing is required of what comes before
    [sns], and none of the three separators has to be a dot. *)
Theorem default_pattern_hosts (host : string) :
  re_search default_pattern host = true
  ↔ ∃ pre c1 label c2 c3 tail,
      host = pre ++ "sns" ++ String c1 (label ++ String c2
               ("amazonaws" ++ String c3 ("com" ++ tail)))
      ∧ c1 ≠ newline ∧ c2 ≠ newline ∧ c3 ≠ newline
      ∧ sns_label label = true ∧ (tail = "" ∨ tail = nl).
Proof.
  rewrite re_search_iff. split.
  - intros (pre & u & v & -> & H).
    apply default_pattern_Matches in H
      as (c1 & label & c2 & c3 & -> & Hc1 & Hc2 & Hc3 & Hlabel & Hend).
    exists pre, c1, label, c2, c3, v. split; [|auto].
    f_equal. rewrite !string_app_assoc, !string_app_cons, !string_app_nil.
    rewrite !string_app_assoc. reflexivity.
  - intros (pre & c1 & label & c2 & c3 & tail & -> & Hc1 & Hc2 & Hc3 & Hlabel & Hend).
    exists pre, ("sns" ++ String c1 (label ++ String c2 ("amazonaws" ++ String c3 "com"))),
      tail.
    split.
    + f_equal. rewrite !string_app_assoc, !string_app_cons, !string_app_nil.
      rewrite !string_app_assoc. reflexivity.
    + apply default_pattern_Matches. exists c1, label, c2, c3. auto 10.
Qed.

Section Endpoints.

Variable settings : settings_module.
Variable lib : libraries.


End Endpoints.

(** ** [clean_time]

    A [datetime] is kept as the reading of its wall clock, counted in
    microseconds from the first instant of year 1, and the UTC offset of
    its [tzinfo] at that reading, in microseconds; a naive [datetime] has
    no [tzinfo].  [dateutil.parser.parse] and the local time zone of the
    system are libraries. *)

Record datetime : Type := Datetime {
  wall : Z;
  tzinfo : option Z
}.

(** [datetime.max], the last microsecond of year 9999. *)
Definition datetime_max : Z := 315537897599999999.

Record time_libraries : Type := TimeLibraries {
  dateutil_parse : string → result datetime;
  local_utcoffset : Z → result Z
}.

Record django_settings : Type := DjangoSettings {
  USE_TZ : bool
}.

(** [t - delta] for a [timedelta] of [delta] microseconds. *)
Definition datetime_sub (t : datetime) (delta : Z) : result datetime :=
  let reading := (wall t - delta)%Z in
  if ((0 <=? reading) && (reading <=? datetime_max))%Z
  then Returned (Datetime reading (tzinfo t))
  else Raised (LibraryError "OverflowError: date value out of range").

(** A day, in microseconds. *)
Definition day : Z := 86400000000.

(** [utcoffset()] hands on an offset that lies strictly within a day
    either way and raises [ValueError] for any other. *)
Definition utcoffset (offset : Z) : result Z :=
  if ((- day <? offset) && (offset <? day))%Z then Returned offset
  else Raised (ValueError
         "offset must be a timedelta strictly between -timedelta(hours=24) and timedelta(hours=24)").

(** [t.astimezone(utc)]: the offset of [t] is asked for first, a naive
    [t] being read in the local zone, then taken off the reading. *)
Definition astimezone_utc (tlib : time_libraries) (t : datetime) : result datetime :=
  result_bind
    (result_bind
       (match tzinfo t with
        | Some offset => Returned offset
        | None => local_utcoffset tlib (wall t)
        end)
       utcoffset)
    (λ myoffset,
       result_bind (datetime_sub t myoffset) (λ utc, Returned (Datetime (wall utc) (Some 0%Z)))).

Definition replace_tzinfo_None (t : datetime) : datetime := Datetime (wall t) None.

Definition clean_time (dsettings : django_settings) (tlib : time_libraries)
    (time_string : string) : result datetime :=
  result_bind (dateutil_parse tlib time_string) (λ time,
    if negb (USE_TZ dsettings) then
      result_bind (astimezone_utc tlib time) (λ time, Returned (replace_tzinfo_None time))
    else Returned time).

(** The instant an aware [datetime] denotes: its reading in UTC. *)
Definition utc_reading (t : datetime) : option Z :=
  (λ offset, wall t - offset)%Z <$> tzinfo t.

(** The offset of an aware [datetime] is one that [utcoffset()] hands
    on. *)
Definition offset_within_a_day (t : datetime) : Prop :=
  ∀ offset, tzinfo t = Some offset → (- day < offset < day)%Z.

Section CleanTime.

Variable tlib : time_libraries.

(** X24. With [USE_TZ] off, two time strings that are parsed to aware
    times of one instant, with offsets of less than a day, are cleaned to
    the same value whatever their zones: the naive [datetime] that reads
    that instant in UTC. *)
Theorem clean_time_normalises
    (dsettings : django_settings) (s1 s2 : string) (t1 t2 : datetime) (instant : Z) :
  USE_TZ dsettings = false →
  dateutil_parse tlib s1 = Returned t1 →
  dateutil_parse tlib s2 = Returned t2 →
  offset_within_a_day t1 →
  offset_within_a_day t2 →
  utc_reading t1 = Some instant →
  utc_reading t2 = Some instant →
  (0 ≤ instant ≤ datetime_max)%Z →
  clean_time dsettings tlib s1 = Returned (Datetime instant None)
  ∧ clean_time dsettings tlib s2 = Returned (Datetime instant None).
Proof.
  intros Hoff H1 H2 Hd1 Hd2 Hi1 Hi2 Hrange.
  assert (Hclean : ∀ s t, dateutil_parse tlib s = Returned t →
                          offset_within_a_day t →
                          utc_reading t = Some instant →
                          clean_time dsettings tlib s = Returned (Datetime instant None)).
  { intros s [reading [offset|]] Hs Hday Hi; [|discriminate]. injection Hi as <-.
    specialize (Hday offset eq_refl).
    unfold clean_time, astimezone_utc, utcoffset, datetime_sub. rewrite Hs, Hoff. simpl.
    assert (Hvalid : ((- day <? offset) && (offset <? day))%Z = true).
    { apply andb_true_intro. split; apply Z.ltb_lt; lia. }
    rewrite Hvalid. simpl.
    assert (Hin : ((0 <=? reading - offset) && (reading - offset <=? datetime_max))%Z = true).
    { apply andb_true_intro. split; apply Z.leb_le; lia. }
    simpl in Hrange. now rewrite Hin. }
  split; eauto.
Qed.

(** X25. With [USE_TZ] off, an aware time with an offset of less than a
    day whose UTC reading falls before year 1 or after year 9999 makes
    [clean_time] raise [OverflowError]. *)
Theorem clean_time_out_of_range
    (dsettings : django_settings) (s : string) (t : datetime) (instant : Z) :
  USE_TZ dsettings = false →
  dateutil_parse tlib s = Returned t →
  offset_within_a_day t →
  utc_reading t = Some instant →
  (instant < 0 ∨ datetime_max < instant)%Z →
  clean_time dsettings tlib s
  = Raised (LibraryError "OverflowError: date value out of range").
Proof.
  intros Hoff Hs Hday Hi Hrange. destruct t as [reading [offset|]]; [|discriminate].
  injection Hi as <-. specialize (Hday offset eq_refl).
  unfold clean_time, astimezone_utc, utcoffset, datetime_sub.
  rewrite Hs, Hoff. simpl in *.
  assert (Hvalid : ((- day <? offset) && (offset <? day))%Z = true).
  { apply andb_true_intro. split; apply Z.ltb_lt; lia. }
  rewrite Hvalid. simpl.
  assert (Hout : ((0 <=? reading - offset) && (reading - offset <=? datetime_max))%Z = false).
  { apply andb_false_iff. rewrite !Z.leb_gt. lia. }
  now rewrite Hout.
Qed.

(** X26. With [USE_TZ] on, [clean_time] hands back what the parser
    produced, zone and all; with [USE_TZ] off, whatever it returns is
    naive.  So a time string without a zone gives a naive [datetime]
    under either setting. *)
Theorem clean_time_tzinfo
    (dsettings : django_settings) (s : string) (parsed cleaned : datetime) :
  dateutil_parse tlib s = Returned parsed →
  clean_time dsettings tlib s = Returned cleaned →
  (USE_TZ dsettings = true → cleaned = parsed)
  ∧ (USE_TZ dsettings = false → tzinfo cleaned = None)
  ∧ (tzinfo parsed = None → tzinfo cleaned = None).
Proof.
  intros Hs. unfold clean_time. rewrite Hs. simpl.
  destruct (USE_TZ dsettings); simpl.
  - intros [= <-]. repeat split; auto; discriminate.
  - destruct (astimezone_utc tlib parsed) as [t|e]; simpl; [|discriminate].
    intros [= <-]. repeat split; auto; discriminate.
Qed.

End CleanTime.

(** ** The further statements at work on the fixture *)

Module Runs.
Import Fixture.

(** The fixture, with one more URL behind [urlopen]: a body that is not
    UTF-8. *)
Definition binary_url : string := "https://sns.us-east-1.amazonaws.com/binary".

Definition lib_binary : libraries :=
  {| urlopen := λ h url,
       if String.eqb url binary_url then Returned [Byte.xff] else urlopen_stub h url;
     pem_parse := pem_blocks;
     public_key := crypto_key crypto;
     load_pem_public_key := crypto_load crypto;
     verify := verify_keywords crypto;
     urlparse_netloc := netloc_stub;
     force_str := force_str_stub |}.

Definition unconfigured : world := World ∅ [].

Definition down_url : string := "https://sns.eu-west-1.amazonaws.com/down.pem".

(** A cache that holds an empty entry for the key file and an entry
    of someone else. *)
Definition stale : world :=
  World {[ "default" := {[ cert_url := []; "session" := [Byte.x01] ]} ]} [].

Definition hour : Z := 3600000000.

(** Noon of 1 May 2023, as a wall clock reading. *)
Definition noon : Z := 63818539200000000.

Definition parse_stub (s : string) : result datetime :=
  if String.eqb s "2023-05-01T12:00:00.000Z" then Returned (Datetime noon (Some 0%Z))
  else if String.eqb s "2023-05-01T14:00:00.000+02:00"
  then Returned (Datetime (noon + 2 * hour) (Some (2 * hour)%Z))
  else if String.eqb s "0001-01-01T00:30:00+01:00"
  then Returned (Datetime (hour / 2) (Some hour))
  else if String.eqb s "2023-05-01T12:00:00" then Returned (Datetime noon None)
  else Raised (ValueError "Unknown string format").

Definition tlib : time_libraries :=
  {| dateutil_parse := parse_stub; local_utcoffset := λ _, Returned hour |}.

Definition aware : django_settings := {| USE_TZ := true |}.
Definition naive : django_settings := {| USE_TZ := false |}.

Lemma approve_subscription_confirms_witness :
  approve_subscription settings lib {[ "SubscribeURL" := lookalike_url ]} fresh
  = (Returned (HttpResponse "phished"),
     World (caches fresh)
       (Signal "bouncy_approve_subscription" (force_bytes "phished")
          {[ "SubscribeURL" := lookalike_url ]}
        :: Log INFO "Subscription Request Sent %s" (ArgStr lookalike_url)
        :: Request lookalike_url :: history fresh)).
Proof.
  apply (approve_subscription_confirms settings lib {[ "SubscribeURL" := lookalike_url ]}
           fresh lookalike_url "sns-us-east-1-amazonaws.com").
  - reflexivity.
  - reflexivity.
  - vm_compute. reflexivity.
  - reflexivity.
  - reflexivity.
Defined.

Lemma grab_keyfile_unconfigured_cache_witness :
  grab_keyfile settings lib cert_url unconfigured
  = (Raised (InvalidCacheBackendError "default"), unconfigured).
Proof. apply (grab_keyfile_unconfigured_cache settings lib cert_url unconfigured). reflexivity. Defined.

Lemma grab_keyfile_download_failure_witness :
  grab_keyfile settings lib down_url fresh
  = (Raised (URLError "no route to host"), World (caches fresh) [Request down_url]).
Proof.
  apply (grab_keyfile_download_failure settings lib down_url fresh ∅).
  - reflexivity.
  - reflexivity.
  - reflexivity.
Defined.

Lemma grab_keyfile_empty_entry_witness :
  ∃ w', grab_keyfile settings lib cert_url stale = (Returned key_file, w')
        ∧ entry w' "default" cert_url = Some key_file
        ∧ requests (history w') = cert_url :: requests (history stale).
Proof.
  apply (grab_keyfile_empty_entry settings lib cert_url stale key_file).
  - reflexivity.
  - reflexivity.
  - reflexivity.
Defined.

Lemma grab_keyfile_keeps_entries_witness :
  entry (grab_keyfile settings lib cert_url stale).2 "default" "session" = Some [Byte.x01].
Proof.
  apply (grab_keyfile_keeps_entries settings lib cert_url stale
           (grab_keyfile settings lib cert_url stale).2
           (grab_keyfile settings lib cert_url stale).1 "default" "session" [Byte.x01]).
  - now destruct (grab_keyfile settings lib cert_url stale).
  - reflexivity.
  - discriminate.
Defined.

Lemma grab_keyfile_frame_witness :
  (is_Some (caches (grab_keyfile settings lib cert_url stale).2 !! "default")
   ↔ is_Some (caches stale !! "default"))
  ∧ (("default", "session") ≠ (key_cache_alias settings, cert_url) →
     entry (grab_keyfile settings lib cert_url stale).2 "default" "session"
     = entry stale "default" "session").
Proof.
  apply (grab_keyfile_frame settings lib cert_url stale
           (grab_keyfile settings lib cert_url stale).2
           (grab_keyfile settings lib cert_url stale).1).
  now destruct (grab_keyfile settings lib cert_url stale).
Defined.

Lemma grab_keyfile_requests_witness :
  requests (history (grab_keyfile settings lib cert_url stale).2)
  = ((if truthy (({[ cert_url := []; "session" := [Byte.x01] ]} : gmap string bytes)
                   !! cert_url)
      then [] else [cert_url]) ++ requests (history stale))%list
  ∧ signals (history (grab_keyfile settings lib cert_url stale).2)
    = signals (history stale).
Proof.
  apply (grab_keyfile_requests settings lib cert_url stale
           (grab_keyfile settings lib cert_url stale).2
           (grab_keyfile settings lib cert_url stale).1
           {[ cert_url := []; "session" := [Byte.x01] ]}).
  - reflexivity.
  - now destruct (grab_keyfile settings lib cert_url stale).
Defined.

Lemma grab_keyfile_failure_not_cached_witness :
  requests (history (grab_keyfile settings lib two_certs_url
                       (grab_keyfile settings lib two_certs_url fresh).2).2)
  = [two_certs_url; two_certs_url].
Proof.
  apply (grab_keyfile_failure_not_cached settings lib two_certs_url fresh
           (grab_keyfile settings lib two_certs_url fresh).2
           (grab_keyfile settings lib two_certs_url
              (grab_keyfile settings lib two_certs_url fresh).2).2
           (ValueError "Invalid Certificate File")
           (grab_keyfile settings lib two_certs_url
              (grab_keyfile settings lib two_certs_url fresh).2).1).
  - vm_compute. eauto.
  - vm_compute. reflexivity.
  - now destruct (grab_keyfile settings lib two_certs_url _).
Defined.

Lemma verify_notification_without_cert_url_witness :
  verify_notification settings lib (delete "SigningCertURL" notification) fresh
  = (Raised (KeyError "SigningCertURL"), fresh).
Proof.
  apply (verify_notification_without_cert_url settings lib
           (delete "SigningCertURL" notification) fresh).
  reflexivity.
Defined.

Lemma verify_notification_certificate_failure_witness :
  verify_notification settings lib (<["SigningCertURL" := two_certs_url]> notification) fresh
  = (Raised (ValueError "Invalid Certificate File"),
     World (caches fresh)
       [Log ERROR "Invalid Certificate File: URL %s" (ArgStr two_certs_url);
        Request two_certs_url]).
Proof.
  apply (verify_notification_certificate_failure settings lib
           (<["SigningCertURL" := two_certs_url]> notification) fresh _ two_certs_url).
  - reflexivity.
  - vm_compute. reflexivity.
Defined.

Lemma verify_notification_without_signature_witness :
  verify_notification settings lib (delete "Signature" notification) fresh
  = (Raised (KeyError "Signature"), Witnesses.after_fetch).
Proof.
  apply (verify_notification_without_signature settings lib
           (delete "Signature" notification) fresh Witnesses.after_fetch cert_url
           key_file key_file).
  - reflexivity.
  - vm_compute. reflexivity.
  - vm_compute. reflexivity.
  - reflexivity.
Defined.

Lemma verify_notification_missing_field_witness :
  verify_notification settings lib (delete "Message" notification) fresh
  = (Returned false, Witnesses.after_fetch).
Proof.
  apply (verify_notification_missing_field settings lib (delete "Message" notification)
           fresh Witnesses.after_fetch cert_url "LQ==" "Notification" "Message"
           key_file [Byte.x2d] key_file).
  - reflexivity.
  - vm_compute. reflexivity.
  - vm_compute. reflexivity.
  - reflexivity.
  - vm_compute. reflexivity.
  - reflexivity.
  - vm_compute. set_solver.
  - reflexivity.
Defined.

Lemma verify_notification_rejected_signature_witness :
  verify_notification settings lib (<["Message" := "Hellp"]> notification) fresh
  = (Returned false, Witnesses.after_fetch).
Proof.
  eapply (verify_notification_rejected_signature settings lib
            (<["Message" := "Hellp"]> notification) fresh Witnesses.after_fetch cert_url
            "LQ==" _ key_file [Byte.x2d] key_file
            (TypeError "verify() missing required argument 'padding'")).
  - reflexivity.
  - vm_compute. reflexivity.
  - vm_compute. reflexivity.
  - reflexivity.
  - vm_compute. reflexivity.
  - vm_compute. reflexivity.
  - vm_compute. reflexivity.
Defined.

Lemma verify_notification_effects_witness :
  signals (history (verify_notification settings lib notification fresh).2)
  = signals (history fresh)
  ∧ (requests (history (verify_notification settings lib notification fresh).2)
     = requests (history fresh)
     ∨ ∃ url, notification !! "SigningCertURL" = Some url
              ∧ requests (history (verify_notification settings lib notification fresh).2)
                = url :: requests (history fresh)).
Proof.
  apply (verify_notification_effects settings lib notification fresh
           (verify_notification settings lib notification fresh).2
           (verify_notification settings lib notification fresh).1).
  now destruct (verify_notification settings lib notification fresh).
Defined.

Lemma verify_notification_unsigned_field_witness :
  verify_notification settings lib (<["Subject" := "Your invoice"]> notification) fresh
  = verify_notification settings lib notification fresh.
Proof.
  apply (verify_notification_unsigned_field settings lib notification fresh "Subject").
  - discriminate.
  - discriminate.
  - discriminate.
  - intros type [= <-]. refine (bool_decide_unpack _ _). vm_compute. exact I.
Defined.

Lemma verify_notification_signature_noise_witness :
  verify_notification settings lib (<["Signature" := " L-Q=" ++ nl ++ "=!"]> notification) fresh
  = verify_notification settings lib notification fresh.
Proof.
  apply (verify_notification_signature_noise settings lib notification fresh "LQ==").
  - reflexivity.
  - vm_compute. reflexivity.
Defined.

Lemma approve_subscription_without_url_witness :
  approve_subscription settings lib notification fresh
  = (Raised (KeyError "SubscribeURL"), fresh).
Proof. apply (approve_subscription_without_url settings lib notification fresh). reflexivity. Defined.

Lemma approve_subscription_masks_errors_witness :
  approve_subscription settings lib {[ "SubscribeURL" := down_url ]} fresh
  = (Raised (AttributeError "module 'urllib' has no attribute 'HTTPError'"),
     World (caches fresh) [Request down_url]).
Proof.
  apply (approve_subscription_masks_errors settings lib {[ "SubscribeURL" := down_url ]}
           fresh down_url "sns.eu-west-1.amazonaws.com" (URLError "no route to host")).
  - reflexivity.
  - reflexivity.
  - vm_compute. reflexivity.
  - reflexivity.
Defined.

Lemma approve_subscription_undecodable_body_witness :
  ∃ w', approve_subscription settings lib_binary {[ "SubscribeURL" := binary_url ]} fresh
        = (Raised UnicodeDecodeError, w')
        ∧ requests (history w') = binary_url :: requests (history fresh)
        ∧ signals (history w')
          = ([Byte.xff], {[ "SubscribeURL" := binary_url ]}) :: signals (history fresh).
Proof.
  apply (approve_subscription_undecodable_body settings lib_binary
           {[ "SubscribeURL" := binary_url ]} fresh binary_url
           "sns.us-east-1.amazonaws.com" [Byte.xff] UnicodeDecodeError).
  - reflexivity.
  - reflexivity.
  - vm_compute. reflexivity.
  - reflexivity.
  - reflexivity.
Defined.

Lemma approve_subscription_effects_witness :
  caches (approve_subscription settings lib Witnesses.unsubscribe fresh).2 = caches fresh
  ∧ (requests (history (approve_subscription settings lib Witnesses.unsubscribe fresh).2)
     = requests (history fresh)
     ∧ signals (history (approve_subscription settings lib Witnesses.unsubscribe fresh).2)
       = signals (history fresh)
     ∨ ∃ url, Witnesses.unsubscribe !! "SubscribeURL" = Some url
         ∧ requests (history (approve_subscription settings lib Witnesses.unsubscribe fresh).2)
           = url :: requests (history fresh)
         ∧ (signals (history (approve_subscription settings lib Witnesses.unsubscribe fresh).2)
            = signals (history fresh)
            ∨ ∃ body, urlopen lib (history fresh) url = Returned body
                ∧ signals (history
                             (approve_subscription settings lib Witnesses.unsubscribe fresh).2)
                  = (body, Witnesses.unsubscribe) :: signals (history fresh))).
Proof.
  apply (approve_subscription_effects settings lib Witnesses.unsubscribe fresh
           (approve_subscription settings lib Witnesses.unsubscribe fresh).2
           (approve_subscription settings lib Witnesses.unsubscribe fresh).1).
  now destruct (approve_subscription settings lib Witnesses.unsubscribe fresh).
Defined.

Lemma approve_subscription_ok_only_if_witness :
  ∃ url domain body text,
    ({[ "SubscribeURL" := cert_url ]} : payload) !! "SubscribeURL" = Some url
    ∧ urlparse_netloc lib url = Returned domain
    ∧ re_search (subscribe_domain_pattern settings) domain = true
    ∧ urlopen lib (history fresh) url = Returned body
    ∧ force_str lib body = Returned text
    ∧ (approve_subscription settings lib {[ "SubscribeURL" := cert_url ]} fresh).1
      = Returned (HttpResponse text)
    ∧ requests (history (approve_subscription settings lib
                           {[ "SubscribeURL" := cert_url ]} fresh).2)
      = url :: requests (history fresh)
    ∧ signals (history (approve_subscription settings lib
                          {[ "SubscribeURL" := cert_url ]} fresh).2)
      = (body, {[ "SubscribeURL" := cert_url ]}) :: signals (history fresh).
Proof.
  destruct (approve_subscription_ok_only_if settings lib {[ "SubscribeURL" := cert_url ]}
              fresh (approve_subscription settings lib {[ "SubscribeURL" := cert_url ]} fresh).2
              (HttpResponse (string_of_list_ascii (ascii_of_byte <$> key_file))))
    as (url & domain & body & text & H1 & H2 & H3 & H4 & H5 & H6 & H7 & H8).
  - vm_compute. reflexivity.
  - reflexivity.
  - exists url, domain, body, text. rewrite <- H6. repeat split; try assumption.
Defined.

Lemma canonical_string_injective_witness :
  Forall (λ name, notification !! name = (<["Signature" := "AAAA"]> notification) !! name)
         (template_order "Notification").
Proof.
  eapply (canonical_string_injective notification (<["Signature" := "AAAA"]> notification)
            "Notification").
  - reflexivity.
  - reflexivity.
  - repeat constructor; intros v [[= <-]|[= <-]]; reflexivity.
  - vm_compute. reflexivity.
  - vm_compute. reflexivity.
Defined.


Lemma clean_time_normalises_witness :
  clean_time naive tlib "2023-05-01T12:00:00.000Z" = Returned (Datetime noon None)
  ∧ clean_time naive tlib "2023-05-01T14:00:00.000+02:00" = Returned (Datetime noon None).
Proof.
  apply (clean_time_normalises tlib naive _ _ (Datetime noon (Some 0%Z))
           (Datetime (noon + 2 * hour) (Some (2 * hour)%Z)) noon).
  - reflexivity.
  - reflexivity.
  - reflexivity.
  - intros offset [= <-]. vm_compute. split; reflexivity.
  - intros offset [= <-]. vm_compute. split; reflexivity.
  - reflexivity.
  - reflexivity.
  - vm_compute. split; discriminate.
Defined.

Lemma clean_time_out_of_range_witness :
  clean_time naive tlib "0001-01-01T00:30:00+01:00"
  = Raised (LibraryError "OverflowError: date value out of range").
Proof.
  apply (clean_time_out_of_range tlib naive _ (Datetime (hour / 2) (Some hour))
           (hour / 2 - hour)%Z).
  - reflexivity.
  - reflexivity.
  - intros offset [= <-]. vm_compute. split; reflexivity.
  - reflexivity.
  - left. reflexivity.
Defined.

Lemma clean_time_tzinfo_witness :
  (USE_TZ aware = true → Datetime noon None = Datetime noon None)
  ∧ (USE_TZ aware = false → tzinfo (Datetime noon None) = None)
  ∧ (tzinfo (Datetime noon None) = None → tzinfo (Datetime noon None) = None).
Proof.
  apply (clean_time_tzinfo tlib aware "2023-05-01T12:00:00").
  - reflexivity.
  - reflexivity.
Defined.

End Runs.
